(** * VMT: dataset conversion and augmentation engine (src/app.py)

    A shallow embedding of the COCO -> YOLO converter and of the YOLO
    augmentation loop of [src/app.py], with the properties of the
    natural-language specification stated over it.

    Modelling conventions.
    - Python [float] values are modelled as exact rationals ([Qc], canonical
      fractions with Leibniz equality).  Every arithmetic identity below is
      therefore an identity of exact arithmetic; the program computes the same
      expressions in binary floating point.
    - Python exceptions are modelled by the [result] type; a function that can
      raise returns [Raise e] with the exception class [e].
    - Code that reads and writes files runs in the [io] monad over a [world]:
      a finite map from paths to files, and the log.  A text file is the list
      of its lines.  Directories are implicit: [os.makedirs] has no effect on
      the map.
    - Calls into [pathlib], [random], the float formatter and parser are the
      fields of the class [Platform]; calls into albumentations, OpenCV and
      numpy's random generator are the fields of the class [Augmenter].
      [Module Demo] gives plain instances to run the program on concrete
      inputs.
    - Of [augment_dataset_noninteractive] the body of the loop over the image
      files is modelled; the directory listing and the manifest update around
      it are not.
    - Of [unzip_and_convert_noninteractive] the search for the annotation
      document is modelled, over what [os.walk] yields; the extraction of the
      archive and the temporary directory are not. *)

From Stdlib Require Import ZArith QArith Qcanon Qround String Ascii List Lia.
From stdpp Require Import base option list gmap strings numbers sorting pretty.
Import ListNotations.

Local Open Scope Z_scope.

(** ** Exceptions and results *)

Inductive exn : Type :=
  | IndexError
  | ValueError
  | KeyError
  | TypeError
  | ZeroDivisionError
  | FileNotFoundError
  | JSONDecodeError
  | OSError
  | LibraryError.

Inductive result (A : Type) : Type :=
  | Ok (a : A)
  | Raise (e : exn).
Arguments Ok {A} a.
Arguments Raise {A} e.

#[global] Instance result_ret : MRet result := fun A a => Ok a.
#[global] Instance result_bind : MBind result := fun A B f m =>
  match m with
  | Ok a => f a
  | Raise e => Raise e
  end.
#[global] Instance result_fmap : FMap result := fun A B f m =>
  match m with
  | Ok a => Ok (f a)
  | Raise e => Raise e
  end.

(** [x[k]] on a missing key, [int(s)] on a non-number, ... : turn the
    [None] of a partial operation into the exception Python raises. *)
Definition or_raise {A} (e : exn) (o : option A) : result A :=
  match o with
  | Some a => Ok a
  | None => Raise e
  end.


(** A [for] loop whose body may raise: the first exception stops the loop. *)
Fixpoint for_each {A S} (body : S -> A -> result S) (xs : list A) (s : S)
  : result S :=
  match xs with
  | [] => Ok s
  | x :: xs' =>
      match body s x with
      | Ok s' => for_each body xs' s'
      | Raise e => Raise e
      end
  end.

(** ** LabelCodec: [parse_yolo_label] and [save_yolo_label] *)

(** [str.isspace] on the ASCII range: TAB, LF, VT, FF, CR, FS, GS, RS, US and
    the space character. *)
Definition is_space (c : ascii) : bool :=
  let n := nat_of_ascii c in
  ((9 <=? n)%nat && (n <=? 13)%nat) || ((28 <=? n)%nat && (n <=? 32)%nat).

(** [line.strip().split()]: maximal runs of non-whitespace characters. *)
Fixpoint split_aux (cur : option string) (s : string) : list string :=
  match s with
  | EmptyString =>
      match cur with
      | Some w => [w]
      | None => []
      end
  | String c s' =>
      if is_space c then
        match cur with
        | Some w => w :: split_aux None s'
        | None => split_aux None s'
        end
      else
        split_aux
          (Some (match cur with
                 | Some w => w +:+ String c EmptyString
                 | None => String c EmptyString
                 end)) s'
  end.

Definition split (line : string) : list string := split_aux None line.

(** [[(coords[i], coords[i + 1]) for i in range(0, len(coords), 2)]]:
    [coords[i + 1]] is out of range at the last step when the length is odd. *)
Fixpoint pair_up {A} (coords : list A) : option (list (A * A)) :=
  match coords with
  | [] => Some []
  | [_] => None
  | x :: y :: rest => cons (x, y) <$> pair_up rest
  end.

(** The dict [{"class": cls, "bbox": ..., "poly": ...}].  A bbox is the
    4-element list [cx, cy, w, h]; every place of the program that builds one
    builds exactly four elements, so it is a 4-tuple here. *)
Record label (num : Type) : Type := Label {
  lab_class : Z;
  lab_bbox : option (num * num * num * num);
  lab_poly : option (list (num * num))
}.
Arguments Label {num} _ _ _.
Arguments lab_class {num} _.
Arguments lab_bbox {num} _.
Arguments lab_poly {num} _.

(** [f"{n}"] on an [int] *)
Definition fmt_int (n : Z) : string := pretty n.

Section LabelCodec.
Context {num : Type}.
(** [int(s)] and [float(s)]; [None] where Python raises [ValueError]. *)
Variable int_of_string : string -> option Z.
Variable float_of_string : string -> option num.
(** [f"{x:.6f}"] *)
Variable fmt6 : num -> string.

Definition parse_yolo_label (line : string) : result (label num) :=
  let parts := split line in
  match parts with
  | [] => Raise IndexError
  | p0 :: rest =>
      cls ← or_raise ValueError (int_of_string p0);
      coords ← or_raise ValueError (mapM float_of_string rest);
      match coords with
      | [cx; cy; w; h] => Ok (Label cls (Some (cx, cy, w, h)) None)
      | _ =>
          poly ← or_raise IndexError (pair_up coords);
          Ok (Label cls None (Some poly))
      end
  end.

Definition join_space (ws : list string) : string :=
  match ws with
  | [] => EmptyString
  | w :: ws' => fold_left (fun acc x => acc +:+ " " +:+ x) ws' w
  end.

(** One line of [save_yolo_label], without the final newline; [None] when
    both fields are [None] and nothing is written. *)
Definition label_line (lab : label num) : option string :=
  match lab_bbox lab, lab_poly lab with
  | Some (cx, cy, w, h), _ =>
      Some (join_space [fmt_int (lab_class lab); fmt6 cx; fmt6 cy; fmt6 w; fmt6 h])
  | None, Some poly =>
      let poly_str :=
        join_space (map (fun p => fmt6 (fst p) +:+ " " +:+ fmt6 (snd p)) poly) in
      Some (fmt_int (lab_class lab) +:+ " " +:+ poly_str)
  | None, None => None
  end.

Definition save_yolo_label (labels : list (label num)) : list string :=
  omap label_line labels.
End LabelCodec.

(** ** Python containers *)

(** A [dict] with integer keys: an association list in insertion order with
    no repeated key.  Assigning to a key that is present replaces its value
    and keeps its position. *)
Fixpoint dict_set {V} (k : Z) (v : V) (d : list (Z * V)) : list (Z * V) :=
  match d with
  | [] => [(k, v)]
  | (k', v') :: d' =>
      if decide (k = k') then (k, v) :: d' else (k', v') :: dict_set k v d'
  end.

Fixpoint dict_get {V} (k : Z) (d : list (Z * V)) : option V :=
  match d with
  | [] => None
  | (k', v') :: d' => if decide (k = k') then Some v' else dict_get k d'
  end.

Definition dict_keys {V} (d : list (Z * V)) : list Z := map fst d.

(** [{key(x): val(x) for x in xs}] *)
Definition dict_of_list {V} (kvs : list (Z * V)) : list (Z * V) :=
  fold_left (fun d kv => dict_set (fst kv) (snd kv) d) kvs [].

(** [d[k].append(v)] on a [defaultdict(list)] *)
Fixpoint dict_append {V} (k : Z) (v : V) (d : list (Z * list V))
  : list (Z * list V) :=
  match d with
  | [] => [(k, [v])]
  | (k', vs) :: d' =>
      if decide (k = k') then (k, vs ++ [v]) :: d'
      else (k', vs) :: dict_append k v d'
  end.

(** An index of a slice bound, as [slice.indices] clips it: a negative index
    counts from the end, and both ends are clipped to [0, len]. *)
Definition clip_index (len i : Z) : Z :=
  if i <? 0 then Z.max 0 (len + i) else Z.min i len.

(** [l[lo:hi]] with optional bounds *)
Definition py_slice {A} (l : list A) (lo hi : option Z) : list A :=
  let len := Z.of_nat (length l) in
  let lo' := from_option (clip_index len) 0 lo in
  let hi' := from_option (clip_index len) len hi in
  take (Z.to_nat (hi' - lo')) (drop (Z.to_nat lo') l).

(** [int(x)] on a float: truncation toward zero. *)
Definition int_of_float (x : Qc) : Z := Z.quot (Qnum x) (Zpos (Qden x)).

(** [min(a, b)] and [max(a, b)] on numbers *)
Definition Qc_min (a b : Qc) : Qc := if decide (b < a)%Qc then b else a.
Definition Qc_max (a b : Qc) : Qc := if decide (a < b)%Qc then b else a.

(** [min(xs)] and [max(xs)]: [ValueError] on an empty sequence. *)
Definition list_min (xs : list Qc) : result Qc :=
  match xs with
  | [] => Raise ValueError
  | x :: rest => Ok (fold_left Qc_min rest x)
  end.

Definition list_max (xs : list Qc) : result Qc :=
  match xs with
  | [] => Raise ValueError
  | x :: rest => Ok (fold_left Qc_max rest x)
  end.

(** ** Files, the world and the [io] monad *)

(** A decoded image: the array [img] with [img.shape[:2] = (height, width)].
    OpenCV never returns an array with an empty axis. *)
Record image : Type := Image {
  img_height : positive;
  img_width : positive;
  img_pixels : list Z
}.

(** A number of a JSON document: [json.load] gives an [int] or a [float]. *)
Inductive jnum : Type :=
  | JInt (z : Z)
  | JFloat (q : Qc).

Definition jnum_val (x : jnum) : Qc :=
  match x with
  | JInt z => Qc_of_Z z
  | JFloat q => q
  end.

Definition is_JInt (x : jnum) : bool :=
  match x with
  | JInt _ => true
  | JFloat _ => false
  end.

(** The ["segmentation"] value of an annotation: a list of rings, or some
    other JSON value (a run-length dict). *)
Inductive seg_value : Type :=
  | SegList (rings : list (list jnum))
  | SegOther.

Record image_info : Type := ImageInfo {
  img_id : Z;
  img_file_name : string;
  img_info_width : option jnum;
  img_info_height : option jnum
}.

Record annotation : Type := Annotation {
  ann_image_id : Z;
  ann_category_id : Z;
  ann_segmentation : option seg_value;
  ann_bbox : option (list jnum)
}.

Record category : Type := Category {
  cat_id : Z;
  cat_name : string
}.

(** The annotation document after [json.load]; a top-level key may be
    missing. *)
Record coco_doc : Type := CocoDoc {
  coco_images : option (list image_info);
  coco_annotations : option (list annotation);
  coco_categories : option (list category)
}.

(** The dict dumped to [data.yaml] *)
Record manifest : Type := Manifest {
  yaml_path : string;
  yaml_train : string;
  yaml_val : string;
  yaml_test : string;
  yaml_nc : Z;
  yaml_names : list string
}.

Inductive file : Type :=
  | FImage (im : image)
  | FText (lines : list string)
  | FJson (doc : coco_doc)
  | FYaml (cfg : manifest)
  | FOther.

Record world : Type := World {
  files : gmap string file;
  logs : list string
}.

(** Code that reads and writes files and may raise: the world is threaded
    through, and what was written before an exception stays written. *)
Definition io (A : Type) : Type := world -> result A * world.

#[global] Instance io_ret : MRet io := fun A a w => (Ok a, w).
#[global] Instance io_bind : MBind io := fun A B f m w =>
  match m w with
  | (Ok a, w') => f a w'
  | (Raise e, w') => (Raise e, w')
  end.

Definition lift {A} (r : result A) : io A := fun w => (r, w).

Definition write_file (path : string) (f : file) : io unit := fun w =>
  (Ok tt, World (<[path := f]> (files w)) (logs w)).

Definition log (msg : string) : io unit := fun w =>
  (Ok tt, World (files w) (logs w ++ [msg])).

(** [os.path.exists(path)] for a file of the tree *)
Definition exists_file (path : string) : io bool := fun w =>
  (Ok (bool_decide (is_Some (files w !! path))), w).

(** [shutil.copy(src, dst)] *)
Definition copy_file (src dst : string) : io unit := fun w =>
  match files w !! src with
  | Some f => (Ok tt, World (<[dst := f]> (files w)) (logs w))
  | None => (Raise FileNotFoundError, w)
  end.

(** [f.write(line)] on a file opened for writing *)
Definition append_line (path : string) (line : string) : io unit := fun w =>
  match files w !! path with
  | Some (FText ls) =>
      (Ok tt, World (<[path := FText (ls ++ [line])]> (files w)) (logs w))
  | _ => (Raise OSError, w)
  end.

(** A [for] loop in [io] *)
Fixpoint io_for {A} (xs : list A) (body : A -> io unit) : io unit :=
  match xs with
  | [] => mret tt
  | x :: xs' => body x ≫= fun _ => io_for xs' body
  end.

(** ** Library operations the program calls *)

(** [pathlib], [random], string formatting of floats and the conversions
    [int(s)] and [float(s)].  [int_of_string] and [float_of_string] give
    [None] where Python raises [ValueError]. *)
Class Platform : Type := {
  path_join : string -> string -> string;
  path_parent : string -> string;
  path_name : string -> string;
  path_stem : string -> string;
  path_absolute : string -> string;
  shuffle : list Z -> list Z;
  fmt6 : Qc -> string;
  int_of_string : string -> option Z;
  float_of_string : string -> option Qc
}.

(** ** FormatConverter: [coco_to_yolo_noninteractive] *)

Section FormatConverter.
Context {PF : Platform}.

(** [category_mapping = {cat_id: idx for idx, cat_id in
    enumerate(categories.keys())}] *)
Definition category_mapping (categories : list (Z * string)) : list (Z * Z) :=
  dict_of_list (imap (fun idx cat_id => (cat_id, Z.of_nat idx)) (dict_keys categories)).

(** [class_names = [categories[k] for k in sorted(categories.keys())]] *)
Definition class_names (categories : list (Z * string)) : result (list string) :=
  mapM (fun k => or_raise KeyError (dict_get k categories))
       (merge_sort Z.le (dict_keys categories)).

(** Lines 130-136: the three slices of the shuffled id list. *)
Definition split_slices (image_ids : list Z) (train_ratio val_ratio : Qc)
  : list Z * list Z * list Z :=
  let n := Z.of_nat (length image_ids) in
  let n_train := int_of_float (Qc_of_Z n * train_ratio) in
  let n_val := int_of_float (Qc_of_Z n * val_ratio) in
  (py_slice image_ids None (Some n_train),
   py_slice image_ids (Some n_train) (Some (n_train + n_val)),
   py_slice image_ids (Some (n_train + n_val)) None).

Definition split_sets (image_ids : list Z) (train_ratio val_ratio : Qc)
  : gset Z * gset Z * gset Z :=
  let '(tr, va, te) := split_slices image_ids train_ratio val_ratio in
  (list_to_set tr, list_to_set va, list_to_set te).

(** Lines 138-140: annotations grouped by image, in order of first
    appearance. *)
Definition group_annotations (annotations : list annotation)
  : list (Z * list annotation) :=
  fold_left (fun d ann => dict_append (ann_image_id ann) ann d) annotations [].

(** A numpy float divided in place: dividing by zero gives [inf] or [nan]
    and a warning, not an exception. *)
Definition np_div_str (x d : Qc) : string :=
  if decide (d = 0)%Qc then
    (if decide (0 < x)%Qc then "inf" else if decide (x < 0)%Qc then "-inf" else "nan")
  else fmt6 (x / d)%Qc.

(** Lines 184-188.  [np.array(ring).reshape(-1, 2)] needs an even number of
    coordinates; the array of a non-empty all-integer ring has an integer
    dtype, and numpy refuses the in-place true division on it. *)
Definition polygon_line (class_id : Z) (ring : list jnum) (width height : Qc)
  : result string :=
  poly ← or_raise ValueError (pair_up ring);
  if bool_decide (ring ≠ []) && forallb is_JInt ring then Raise TypeError
  else
    let poly_str :=
      join_space
        (map (fun p => np_div_str (jnum_val (fst p)) width +:+ " " +:+
                       np_div_str (jnum_val (snd p)) height) poly) in
    Ok (fmt_int class_id +:+ " " +:+ poly_str).

(** Python's [a / b] on numbers *)
Definition py_div (a b : Qc) : result Qc :=
  if decide (b = 0)%Qc then Raise ZeroDivisionError else Ok (a / b)%Qc.

(** Lines 191-194 *)
Definition bbox_line (class_id : Z) (bbox : option (list jnum)) (width height : Qc)
  : result string :=
  b ← or_raise KeyError bbox;
  match b with
  | [x; y; w; h] =>
      let '(x, y, w, h) := (jnum_val x, jnum_val y, jnum_val w, jnum_val h) in
      cx ← py_div (x + w / 2)%Qc width;
      cy ← py_div (y + h / 2)%Qc height;
      nw ← py_div w width;
      nh ← py_div h height;
      Ok (join_space [fmt_int class_id; fmt6 cx; fmt6 cy; fmt6 nw; fmt6 nh])
  | _ => Raise ValueError
  end.

(** Lines 175-194: the label line of one annotation. *)
Definition annotation_line (mapping : list (Z * Z)) (ann : annotation)
  (width height : Qc) : result string :=
  class_id ← or_raise KeyError (dict_get (ann_category_id ann) mapping);
  match ann_segmentation ann with
  | Some (SegList (ring :: _)) => polygon_line class_id ring width height
  | _ => bbox_line class_id (ann_bbox ann) width height
  end.

(** [with Image.open(img_path) as im: width, height = im.size] *)
Definition image_size (path : string) : io (Qc * Qc) := fun w =>
  match files w !! path with
  | Some (FImage im) =>
      (Ok (Qc_of_Z (Zpos (img_width im)), Qc_of_Z (Zpos (img_height im))), w)
  | Some _ => (Raise OSError, w)
  | None => (Raise FileNotFoundError, w)
  end.

Definition split_name (img : Z) (train_ids val_ids : gset Z) : string :=
  if decide (img ∈ train_ids) then "train"
  else if decide (img ∈ val_ids) then "valid"
  else "test".

Definition label_path_of (output_dir split file_name : string) : string :=
  path_join (path_join (path_join output_dir split) "labels")
            (path_stem file_name +:+ ".txt").

Definition image_dst_of (output_dir split file_name : string) : string :=
  path_join (path_join (path_join output_dir split) "images")
            (path_name file_name).

(** Lines 145-194: the body of the loop over [img_to_anns.items()]. *)
Definition convert_image (coco_json output_dir : string)
  (images : list (Z * image_info)) (mapping : list (Z * Z))
  (train_ids val_ids : gset Z) (item : Z * list annotation) : io unit :=
  let '(img, anns) := item in
  img_info ← lift (or_raise KeyError (dict_get img images));
  let file_name := img_file_name img_info in
  dims ← match img_info_width img_info, img_info_height img_info with
          | Some w, Some h => mret (jnum_val w, jnum_val h)
          | _, _ => image_size (path_join (path_parent coco_json) file_name)
          end;
  let '(width, height) := dims in
  let split := split_name img train_ids val_ids in
  let src_path := path_join (path_parent coco_json) file_name in
  let dst_path := image_dst_of output_dir split file_name in
  present ← exists_file src_path;
  (if present : bool then copy_file src_path dst_path else mret tt) ≫= fun _ =>
  let label_path := label_path_of output_dir split file_name in
  write_file label_path (FText []) ≫= fun _ =>
  io_for anns (fun ann =>
    line ← lift (annotation_line mapping ann width height);
    append_line label_path line).

(** [with open(coco_json) as f: coco = json.load(f)] *)
Definition load_json (path : string) : io coco_doc := fun w =>
  match files w !! path with
  | Some (FJson doc) => (Ok doc, w)
  | Some _ => (Raise JSONDecodeError, w)
  | None => (Raise FileNotFoundError, w)
  end.

(** The [try] block of [coco_to_yolo_noninteractive], lines 115-215. *)
Definition convert_body (coco_json output_dir : string)
  (train_ratio val_ratio : Qc) : io (Z * Z * Z * list string) :=
  coco ← load_json coco_json;
  imgs ← lift (or_raise KeyError (coco_images coco));
  let images := dict_of_list (map (fun i => (img_id i, i)) imgs) in
  annotations ← lift (or_raise KeyError (coco_annotations coco));
  cats ← lift (or_raise KeyError (coco_categories coco));
  let categories := dict_of_list (map (fun c => (cat_id c, cat_name c)) cats) in
  let mapping := category_mapping categories in
  let image_ids := shuffle (dict_keys images) in
  let '(train_ids, val_ids, test_ids) :=
    split_sets image_ids train_ratio val_ratio in
  let img_to_anns := group_annotations annotations in
  io_for img_to_anns
    (convert_image coco_json output_dir images mapping train_ids val_ids) ≫= fun _ =>
  names ← lift (class_names categories);
  write_file (path_join output_dir "classes.txt") (FText names) ≫= fun _ =>
  let yaml_dict :=
    Manifest (path_absolute output_dir) "train/images" "valid/images"
             "test/images" (Z.of_nat (length names)) names in
  write_file (path_join output_dir "data.yaml") (FYaml yaml_dict) ≫= fun _ =>
  mret (Z.of_nat (size train_ids), Z.of_nat (size val_ids),
        Z.of_nat (size test_ids), names).

(** The text of an exception in the log line, here the name of its class. *)
Definition exn_name (e : exn) : string :=
  match e with
  | IndexError => "IndexError"
  | ValueError => "ValueError"
  | KeyError => "KeyError"
  | TypeError => "TypeError"
  | ZeroDivisionError => "ZeroDivisionError"
  | FileNotFoundError => "FileNotFoundError"
  | JSONDecodeError => "JSONDecodeError"
  | OSError => "OSError"
  | LibraryError => "LibraryError"
  end.

(** [coco_to_yolo_noninteractive]: the [try] block and its
    [except Exception] handler, lines 114-219.  The function returns the
    tuple [(success, n_train, n_val, n_test, class_names)]. *)
Definition coco_to_yolo_noninteractive (coco_json output_dir : string)
  (train_ratio val_ratio : Qc) (w : world)
  : (bool * Z * Z * Z * list string) * world :=
  match convert_body coco_json output_dir train_ratio val_ratio w with
  | (Ok (n_train, n_val, n_test, names), w') =>
      ((true, n_train, n_val, n_test, names), w')
  | (Raise exc, w') =>
      ((false, 0, 0, 0, []),
       World (files w')
             (logs w' ++ ["COCO -> YOLO conversion failed: " +:+ exn_name exc]))
  end.

End FormatConverter.

(** ** [unzip_and_convert_noninteractive]: the search for the annotation
    document *)

(** [s.lower()] on the letters A-Z; no other character lowers to a letter
    of ["coco"]. *)
Definition lower_ascii (c : ascii) : ascii :=
  let n := nat_of_ascii c in
  if (65 <=? n)%nat && (n <=? 90)%nat then ascii_of_nat (n + 32) else c.

Fixpoint lower (s : string) : string :=
  match s with
  | EmptyString => EmptyString
  | String c s' => String (lower_ascii c) (lower s')
  end.

(** [s.endswith(suffix)] *)
Definition endswith (s suffix : string) : bool :=
  let n := String.length s in
  let m := String.length suffix in
  (m <=? n)%nat && String.eqb (String.substring (n - m) m s) suffix.

(** [sub in s] *)
Fixpoint contains (sub s : string) : bool :=
  String.prefix sub s ||
  match s with
  | EmptyString => false
  | String _ s' => contains sub s'
  end.

(** [file.endswith(".json") and "coco" in file.lower()] *)
Definition is_candidate (file : string) : bool :=
  endswith file ".json" && contains "coco" (lower file).

(** [if coco_json:] on a value that is [None] or a string *)
Definition truthy (coco_json : option string) : bool :=
  match coco_json with
  | Some (String _ _) => true
  | _ => false
  end.

Section Locator.
(** [os.path.join] *)
Variable os_path_join : string -> string -> string.

(** Lines 244-247: the loop over the files of one directory. *)
Fixpoint scan_files (root : string) (files : list string)
  (coco_json : option string) : option string :=
  match files with
  | [] => coco_json
  | file :: files' =>
      if is_candidate file then Some (os_path_join root file)
      else scan_files root files' coco_json
  end.

(** Lines 240-249: the loop over what [os.walk(tmpdir)] yields, a directory
    with the names of its files at each step. *)
Fixpoint search_walk (walk : list (string * list string))
  (coco_json : option string) : option string :=
  match walk with
  | [] => coco_json
  | (root, files) :: walk' =>
      if bool_decide ("coco.json" ∈ files)
      then Some (os_path_join root "coco.json")
      else
        let coco_json := scan_files root files coco_json in
        if truthy coco_json then coco_json else search_walk walk' coco_json
  end.

(** Lines 238-252: [FileNotFoundError] when [coco_json] is still [None]. *)
Definition find_coco_json (walk : list (string * list string)) : result string :=
  or_raise FileNotFoundError (search_walk walk None).

End Locator.

(** ** AugmentationCatalog *)

(** [range(start, stop, step)] for a non-zero step *)
Definition py_range (start stop step : Z) : list Z :=
  let n :=
    if 0 <? step then (stop - start + step - 1) / step
    else (start - stop - step - 1) / (- step) in
  (fun k => start + step * k) <$> seqZ 0 n.

(** The geometric transform objects of albumentations the catalog builds. *)
Inductive geo_spec : Type :=
  | HorizontalFlip
  | VerticalFlip
  | Rotate (limit : Z)
  | AffineShear (x y : Z)
  | AffineScale (scale : Qc).

(** The photometric transform objects, with the arguments the catalog gives
    them; [LambdaLowRes] is [A.Lambda(image=low_res)]. *)
Inductive photo_spec : Type :=
  | RandomBrightnessContrast (brightness_limit contrast_limit : Qc * Qc) (p : Qc)
  | HueSaturationValue (hue sat val : Z) (p : Qc)
  | RGBShift (r g b : Z) (p : Qc)
  | CLAHE (clip_limit : Qc) (tile : Z * Z) (p : Qc)
  | RandomGamma (gamma_limit : Z * Z) (p : Qc)
  | MotionBlur (blur_limit : Z) (p : Qc)
  | GaussNoise (p : Qc)
  | MedianBlurColorJitter (blur_limit : Z) (brightness contrast saturation hue : Qc)
  | LambdaLowRes.

Definition qc (n : Z) (d : positive) : Qc := Q2Qc (n # d).

Definition fine_rotations : list (string * geo_spec) :=
  (fun i => ("rot" +:+ fmt_int i, Rotate i)) <$> py_range 12 360 12.

Definition zoom_outs : list (string * geo_spec) :=
  (fun scale => ("zoom_" +:+ fmt_int scale, AffineScale (Qc_of_Z scale / Qc_of_Z 100)%Qc))
    <$> py_range 90 30 (-10).

Definition geo_augs : list (string * geo_spec) :=
  [ ("hflip", HorizontalFlip);
    ("vflip", VerticalFlip);
    ("rot90", Rotate 90);
    ("rot180", Rotate 180);
    ("rot270", Rotate 270);
    ("shear_x15", AffineShear 15 0);
    ("shear_x-15", AffineShear (-15) 0);
    ("shear_y15", AffineShear 0 15);
    ("shear_y-15", AffineShear 0 (-15)) ]
  ++ fine_rotations ++ zoom_outs.

Definition photo_augs : list (string * photo_spec) :=
  [ ("brightness_contrast",
     RandomBrightnessContrast (qc (-2) 10, qc 2 10) (qc (-2) 10, qc 2 10) (qc 7 10));
    ("hsv_shift", HueSaturationValue 15 20 15 (qc 7 10));
    ("rgb_shift", RGBShift 15 15 15 (qc 5 10));
    ("clahe", CLAHE (qc 2 1) (8, 8) (qc 3 10));
    ("gamma", RandomGamma (80, 120) (qc 5 10));
    ("motion_blur", MotionBlur 3 (qc 3 10));
    ("gauss_noise", GaussNoise (qc 3 10));
    ("low_light",
     RandomBrightnessContrast (qc (-6) 10, qc (-4) 10) (qc (-4) 10, qc (-2) 10) (qc 1 1));
    ("overexposed",
     RandomBrightnessContrast (qc 4 10, qc 6 10) (qc 2 10, qc 4 10) (qc 1 1));
    ("reflection_reduce",
     MedianBlurColorJitter 5 (qc 3 10) (qc 3 10) (qc 3 10) (qc 1 10));
    ("low_res", LambdaLowRes) ].

(** ** GeometryEngine: labels of a transformed image *)

(** A box in [pascal_voc] format: the pixel corners [x1, y1, x2, y2]. *)
Definition bbox_pascal : Type := Qc * Qc * Qc * Qc.

(** The five lists filled by the loop of lines 444-465. *)
Record geometry : Type := Geometry {
  keypoints : list (Qc * Qc);
  keypoints_cls : list Z;
  poly_splits : list (Z * Z * Z);
  bboxes_pascal : list bbox_pascal;
  bboxes_cls : list Z
}.

Definition no_geometry : geometry := Geometry [] [] [] [] [].

(** Lines 450-465: one iteration of [for lab in labels]. *)
Definition collect_label (orig_w orig_h : Qc) (g : geometry) (lab : label Qc)
  : geometry :=
  match lab_bbox lab with
  | Some (cx, cy, bw, bh) =>
      let x1 := ((cx - bw / 2) * orig_w)%Qc in
      let y1 := ((cy - bh / 2) * orig_h)%Qc in
      let x2 := ((cx + bw / 2) * orig_w)%Qc in
      let y2 := ((cy + bh / 2) * orig_h)%Qc in
      Geometry (keypoints g) (keypoints_cls g) (poly_splits g)
               (bboxes_pascal g ++ [(x1, y1, x2, y2)])
               (bboxes_cls g ++ [lab_class lab])
  | None =>
      match lab_poly lab with
      | Some poly =>
          let abs_poly :=
            map (fun p => (fst p * orig_w, snd p * orig_h)%Qc) poly in
          let start := Z.of_nat (length (keypoints g)) in
          Geometry (keypoints g ++ abs_poly)
                   (keypoints_cls g ++ map (fun _ => lab_class lab) abs_poly)
                   (poly_splits g ++ [(lab_class lab, start, Z.of_nat (length abs_poly))])
                   (bboxes_pascal g) (bboxes_cls g)
      | None => g
      end
  end.

Definition collect_geometry (orig_w orig_h : Qc) (labels : list (label Qc))
  : geometry :=
  fold_left (collect_label orig_w orig_h) labels no_geometry.

(** [reconstruct_polygons_from_keypoints] *)
Definition reconstruct_polygons_from_keypoints (kps : list (Qc * Qc))
  (splits : list (Z * Z * Z)) : list (Z * list (Qc * Qc)) :=
  fold_left
    (fun polys s =>
       let '(cls, start, length) := s in
       let pts := py_slice kps (Some start) (Some (start + length)) in
       polys ++ [(cls, pts)])
    splits [].

(** [polygon_to_bbox_norm] *)
Definition polygon_to_bbox_norm (poly_pts : list (Qc * Qc)) (img_w img_h : Qc)
  : result (Qc * Qc * Qc * Qc) :=
  let xs := map fst poly_pts in
  let ys := map snd poly_pts in
  x1 ← list_min xs;
  x2 ← list_max xs;
  y1 ← list_min ys;
  y2 ← list_max ys;
  let cx := (((x1 + x2) / 2) / img_w)%Qc in
  let cy := (((y1 + y2) / 2) / img_h)%Qc in
  let bw := ((x2 - x1) / img_w)%Qc in
  let bh := ((y2 - y1) / img_h)%Qc in
  Ok (cx, cy, bw, bh).

(** Lines 497-508 and 565-576: the label of one pixel box. *)
Definition bbox_label (new_w new_h : Qc) (bc : bbox_pascal * Z) : label Qc :=
  let '((x1, y1, x2, y2), cls) := bc in
  let cx := (((x1 + x2) / 2) / new_w)%Qc in
  let cy := (((y1 + y2) / 2) / new_h)%Qc in
  let bw := ((x2 - x1) / new_w)%Qc in
  let bh := ((y2 - y1) / new_h)%Qc in
  Label cls (Some (cx, cy, bw, bh)) None.

(** The loop [for bbox, cls in zip(bboxes, classes): new_labels.append(...)] *)
Definition bbox_labels (new_w new_h : Qc) (bboxes : list bbox_pascal)
  (classes : list Z) : list (label Qc) :=
  fold_left (fun new_labels bc => new_labels ++ [bbox_label new_w new_h bc])
            (zip bboxes classes) [].

(** [max(min(v, 1.0), 0.0)] *)
Definition clamp01 (v : Qc) : Qc := Qc_max (Qc_min v 1) 0.

(** Lines 515-542: the label of one reconstructed polygon after a geometric
    transform. *)
Definition geo_poly_label (new_w new_h : Qc) (poly : Z * list (Qc * Qc))
  : result (label Qc) :=
  let '(cls, pts) := poly in
  let norm :=
    map (fun p => (clamp01 (fst p / new_w), clamp01 (snd p / new_h))%Qc) pts in
  if (3 <=? length norm)%nat then Ok (Label cls None (Some norm))
  else
    bbox_norm ←
      polygon_to_bbox_norm
        (map (fun p => (fst p * new_w, snd p * new_h)%Qc) norm) new_w new_h;
    Ok (Label cls (Some bbox_norm) None).

(** Lines 493-542: [new_labels] of a geometric transform, from the boxes,
    classes and keypoints the transform returned. *)
Definition geo_labels (new_w new_h : Qc) (t_bboxes : list bbox_pascal)
  (t_bboxes_cls : list Z) (t_keypoints : list (Qc * Qc))
  (splits : list (Z * Z * Z)) : result (list (label Qc)) :=
  let new_labels := bbox_labels new_w new_h t_bboxes t_bboxes_cls in
  match splits with
  | [] => Ok new_labels
  | _ =>
      let polys := reconstruct_polygons_from_keypoints t_keypoints splits in
      for_each
        (fun new_labels poly =>
           lab ← geo_poly_label new_w new_h poly;
           Ok (new_labels ++ [lab]))
        polys new_labels
  end.

(** Lines 578-597: the label of one polygon after a photometric transform. *)
Definition photo_poly_label (new_w new_h : Qc) (kps : list (Qc * Qc))
  (s : Z * Z * Z) : result (label Qc) :=
  let '(cls, start, length) := s in
  let pts := py_slice kps (Some start) (Some (start + length)) in
  let norm := map (fun p => (fst p / new_w, snd p / new_h)%Qc) pts in
  if (3 <=? List.length norm)%nat then Ok (Label cls None (Some norm))
  else
    bbox_norm ← polygon_to_bbox_norm pts new_w new_h;
    Ok (Label cls (Some bbox_norm) None).

(** Lines 563-597: [new_labels] of a photometric transform. *)
Definition photo_labels (new_w new_h : Qc) (g : geometry)
  : result (list (label Qc)) :=
  let new_labels := bbox_labels new_w new_h (bboxes_pascal g) (bboxes_cls g) in
  for_each
    (fun new_labels s =>
       lab ← photo_poly_label new_w new_h (keypoints g) s;
       Ok (new_labels ++ [lab]))
    (poly_splits g) new_labels.

(** ** AugmentationOrchestrator: the loop body of
    [augment_dataset_noninteractive] *)

(** What [A.Compose([aug], bbox_params, keypoint_params)(...)] returns: the
    keys ["image"], ["bboxes"], ["bboxes_cls"] and ["keypoints"]. *)
Record geo_result : Type := GeoResult {
  t_image : image;
  t_bboxes : list bbox_pascal;
  t_bboxes_cls : list Z;
  t_keypoints : list (Qc * Qc)
}.

(** albumentations, OpenCV and numpy's random generator.
    - [compose_geo aug image bboxes bboxes_cls keypoints keypoints_cls] is
      the call of lines 470-488;
    - [compose_pixel aug image] is [A.Compose([aug])(image=image)["image"]]
      for the library's own photometric transforms;
    - [cv2_resize img w h] is [cv2.resize(img, (w, h), INTER_LINEAR)];
    - [np_random_uniform lo hi] is one draw of [np.random.uniform(lo, hi)]. *)
Class Augmenter : Type := {
  compose_geo : geo_spec -> image -> list bbox_pascal -> list Z ->
                list (Qc * Qc) -> list Z -> result geo_result;
  compose_pixel : photo_spec -> image -> result image;
  cv2_resize : image -> Z -> Z -> result image;
  np_random_uniform : Qc -> Qc -> Qc
}.

(** A [for] loop in [io] that updates a local variable *)
Fixpoint io_fold {A S} (xs : list A) (body : A -> S -> io S) (s : S) : io S :=
  match xs with
  | [] => mret s
  | x :: xs' => body x s ≫= io_fold xs' body
  end.

Section Orchestrator.
Context {PF : Platform} {AU : Augmenter}.

(** [low_res], lines 316-322 *)
Definition low_res (img : image) : result image :=
  let scale_factor := np_random_uniform (qc 3 10) (qc 5 10) in
  let h := Zpos (img_height img) in
  let w := Zpos (img_width img) in
  let new_h := Z.max 1 (int_of_float (Qc_of_Z h * scale_factor)) in
  let new_w := Z.max 1 (int_of_float (Qc_of_Z w * scale_factor)) in
  img_small ← cv2_resize img new_w new_h;
  cv2_resize img_small w h.

(** [A.Compose([aug])(image=image)["image"]] for an entry of [photo_augs] *)
Definition compose_photo (aug : photo_spec) (img : image) : result image :=
  match aug with
  | LambdaLowRes => low_res img
  | _ => compose_pixel aug img
  end.

(** [cv2.imread]: [None] when the file is missing or is not an image. *)
Definition cv2_imread (path : string) : io (option image) := fun w =>
  (Ok (match files w !! path with
       | Some (FImage im) => Some im
       | _ => None
       end), w).

(** Lines 433-438: the labels of the label file, blank lines skipped; no
    labels when there is no label file. *)
Definition read_labels (label_file : string) : io (list (label Qc)) := fun w =>
  match files w !! label_file with
  | None => (Ok [], w)
  | Some (FText lines) =>
      (for_each
         (fun labels line =>
            match split line with
            | [] => Ok labels
            | _ =>
                lab ← parse_yolo_label int_of_string float_of_string line;
                Ok (labels ++ [lab])
            end)
         lines [], w)
  | Some _ => (Raise ValueError, w)
  end.

Definition image_w (im : image) : Qc := Qc_of_Z (Zpos (img_width im)).
Definition image_h (im : image) : Qc := Qc_of_Z (Zpos (img_height im)).

Definition derived_image_path (out_img_dir img_file name : string) : string :=
  path_join out_img_dir (path_stem img_file +:+ "_" +:+ name +:+ ".jpg").

Definition derived_label_path (out_lbl_dir img_file name : string) : string :=
  path_join out_lbl_dir (path_stem img_file +:+ "_" +:+ name +:+ ".txt").

(** Lines 469-550: one iteration of [for name, aug in geo_augs]. *)
Definition geo_step (out_img_dir out_lbl_dir img_file : string) (img : image)
  (g : geometry) (entry : string * geo_spec) (augmented : Z) : io Z :=
  let '(name, aug) := entry in
  transformed ← lift (compose_geo aug img (bboxes_pascal g) (bboxes_cls g)
                                  (keypoints g) (keypoints_cls g));
  let aug_img := t_image transformed in
  new_labels ← lift (geo_labels (image_w aug_img) (image_h aug_img)
                                (t_bboxes transformed) (t_bboxes_cls transformed)
                                (t_keypoints transformed) (poly_splits g));
  write_file (derived_image_path out_img_dir img_file name) (FImage aug_img) ≫= fun _ =>
  write_file (derived_label_path out_lbl_dir img_file name)
             (FText (save_yolo_label fmt6 new_labels)) ≫= fun _ =>
  mret (augmented + 1).

(** Lines 553-602: one iteration of [for name, aug in photo_augs]. *)
Definition photo_step (out_img_dir out_lbl_dir img_file : string) (img : image)
  (g : geometry) (entry : string * photo_spec) (augmented : Z) : io Z :=
  let '(name, aug) := entry in
  aug_img ← lift (compose_photo aug img);
  write_file (derived_image_path out_img_dir img_file name) (FImage aug_img) ≫= fun _ =>
  new_labels ← lift (photo_labels (image_w aug_img) (image_h aug_img) g);
  write_file (derived_label_path out_lbl_dir img_file name)
             (FText (save_yolo_label fmt6 new_labels)) ≫= fun _ =>
  mret (augmented + 1).

(** Lines 427-602: one iteration of [for img_file in img_files];
    [augmented] is [split_stats["augmented"]]. *)
Definition augment_image (lbl_dir out_img_dir out_lbl_dir img_file : string)
  (augmented : Z) : io Z :=
  let label_file := path_join lbl_dir (path_stem img_file +:+ ".txt") in
  decoded ← cv2_imread img_file;
  match decoded with
  | None => mret augmented
  | Some img =>
      labels ← read_labels label_file;
      copy_file img_file (path_join out_img_dir (path_name img_file)) ≫= fun _ =>
      has_label ← exists_file label_file;
      (if has_label : bool
       then copy_file label_file (path_join out_lbl_dir (path_name label_file))
       else mret tt) ≫= fun _ =>
      let g := collect_geometry (image_w img) (image_h img) labels in
      augmented ←
        (if bool_decide (bboxes_pascal g ≠ []) || bool_decide (keypoints g ≠ [])
         then io_fold geo_augs (geo_step out_img_dir out_lbl_dir img_file img g) augmented
         else mret augmented);
      io_fold photo_augs (photo_step out_img_dir out_lbl_dir img_file img g) augmented
  end.

(** Lines 426-602: the loop over the image files of one split. *)
Definition augment_split (lbl_dir out_img_dir out_lbl_dir : string)
  (img_files : list string) : io Z :=
  io_fold img_files (augment_image lbl_dir out_img_dir out_lbl_dir) 0.

End Orchestrator.

(** ** A small concrete platform

    Plain implementations of the library operations, used to run the
    program on concrete inputs: POSIX-style paths, decimal numerals without
    exponent, the identity shuffle, transforms that leave the picture and its
    geometry as they are. *)
Module Demo.

(** [s] cut at the last occurrence of [c] *)
Fixpoint rsplit (c : ascii) (s : string) : option (string * string) :=
  match s with
  | EmptyString => None
  | String a s' =>
      match rsplit c s' with
      | Some (l, r) => Some (String a l, r)
      | None => if Ascii.eqb a c then Some (EmptyString, s') else None
      end
  end.

Definition join (a b : string) : string := a +:+ "/" +:+ b.

Definition name (p : string) : string :=
  match rsplit "/" p with
  | Some (_, r) => r
  | None => p
  end.

Definition parent (p : string) : string :=
  match rsplit "/" p with
  | Some (l, _) => l
  | None => "."
  end.

Definition stem (p : string) : string :=
  let n := name p in
  match rsplit "." n with
  | Some (EmptyString, _) => n
  | Some (l, _) => l
  | None => n
  end.

Definition digit_val (c : ascii) : option Z :=
  let n := nat_of_ascii c in
  if ((48 <=? n)%nat && (n <=? 57)%nat)%bool then Some (Z.of_nat (n - 48)) else None.

Fixpoint digits_val (acc : Z) (s : string) : option Z :=
  match s with
  | EmptyString => Some acc
  | String c s' => d ← digit_val c; digits_val (10 * acc + d) s'
  end.

Definition unsigned_int (s : string) : option Z :=
  match s with
  | EmptyString => None
  | _ => digits_val 0 s
  end.

Definition signed {A} (neg : A -> A) (unsigned : string -> option A)
  (s : string) : option A :=
  match s with
  | String "-" s' => neg <$> unsigned s'
  | String "+" s' => unsigned s'
  | _ => unsigned s
  end.

Definition parse_int : string -> option Z := signed Z.opp unsigned_int.

Definition unsigned_decimal (s : string) : option Qc :=
  match rsplit "." s with
  | None => Qc_of_Z <$> unsigned_int s
  | Some (EmptyString, EmptyString) => None
  | Some (l, r) =>
      i ← digits_val 0 l;
      f ← digits_val 0 r;
      Some (Qc_of_Z i + Qc_of_Z f / Qc_of_Z (10 ^ Z.of_nat (String.length r)))%Qc
  end.

Definition parse_float : string -> option Qc := signed Qcopp unsigned_decimal.

(** Rounding to the nearest integer, ties to even *)
Definition round_half_even (q : Qc) : Z :=
  let n := Qnum q in
  let d := Zpos (Qden q) in
  let f := n / d in
  let r2 := 2 * (n mod d) in
  if r2 <? d then f
  else if d <? r2 then f + 1
  else if Z.even f then f else f + 1.

Fixpoint zeros (n : nat) : string :=
  match n with
  | O => EmptyString
  | S n' => String "0" (zeros n')
  end.

Definition format6 (q : Qc) : string :=
  let m := round_half_even (q * Qc_of_Z 1000000)%Qc in
  let a := Z.abs m in
  let frac := pretty (a mod 1000000) in
  (if m <? 0 then "-" else "") +:+ pretty (a / 1000000) +:+ "." +:+
  zeros (6 - String.length frac) +:+ frac.

#[local] Instance platform : Platform := {
  path_join := join;
  path_parent := parent;
  path_name := name;
  path_stem := stem;
  path_absolute := fun p => p;
  shuffle := fun ids => ids;
  fmt6 := format6;
  int_of_string := parse_int;
  float_of_string := parse_float
}.

(** A resize keeps the pixels and sets the requested size; the other
    transforms return their input. *)
#[local] Instance augmenter : Augmenter := {
  compose_geo := fun _ img bboxes classes kps _ =>
    Ok (GeoResult img bboxes classes kps);
  compose_pixel := fun _ img => Ok img;
  cv2_resize := fun img w h =>
    match w, h with
    | Zpos w', Zpos h' => Ok (Image h' w' (img_pixels img))
    | _, _ => Raise LibraryError
    end;
  np_random_uniform := fun lo _ => lo
}.

End Demo.

(** Decidable equality, to compare computed results. *)
#[global] Instance exn_eq_dec : EqDecision exn.
Proof. solve_decision. Defined.
#[global] Instance result_eq_dec {A} `{EqDecision A} : EqDecision (result A).
Proof. solve_decision. Defined.
#[global] Instance label_eq_dec {num} `{EqDecision num} : EqDecision (label num).
Proof. solve_decision. Defined.

(** ** Vocabulary of the properties *)

(** The points of a paired-up list, laid out flat again. *)
Definition flat_points {A} (ps : list (A * A)) : list A :=
  concat (map (fun p => [fst p; snd p]) ps).


(** The bbox inputs and the polygon inputs of a label list, in the order of
    the list: [collect_label] treats a label as a bbox when its bbox field
    is set, and as a polygon otherwise when its polygon field is set. *)
Definition bbox_of (lab : label Qc) : option (Z * (Qc * Qc * Qc * Qc)) :=
  b ← lab_bbox lab; Some (lab_class lab, b).

Definition poly_of (lab : label Qc) : option (Z * list (Qc * Qc)) :=
  match lab_bbox lab with
  | Some _ => None
  | None => p ← lab_poly lab; Some (lab_class lab, p)
  end.

Definition bbox_inputs (labels : list (label Qc)) : list (Z * (Qc * Qc * Qc * Qc)) :=
  omap bbox_of labels.

Definition poly_inputs (labels : list (label Qc)) : list (Z * list (Qc * Qc)) :=
  omap poly_of labels.

Definition in01 (v : Qc) : Prop := (0 ≤ v)%Qc /\ (v ≤ 1)%Qc.

(** The box [(cx, cy, w, h)] of the componentwise min/max extent of a
    sequence of normalized points. *)
Definition extent_bbox (pts : list (Qc * Qc)) : result (Qc * Qc * Qc * Qc) :=
  x1 ← list_min (map fst pts);
  x2 ← list_max (map fst pts);
  y1 ← list_min (map snd pts);
  y2 ← list_max (map snd pts);
  Ok ((x1 + x2) / 2, (y1 + y2) / 2, x2 - x1, y2 - y1)%Qc.

(** The box [(cx, cy, w, h)] contains the point [p]. *)
Definition covers (b : Qc * Qc * Qc * Qc) (p : Qc * Qc) : Prop :=
  let '(cx, cy, w, h) := b in
  (cx - w / 2 ≤ fst p)%Qc /\ (fst p ≤ cx + w / 2)%Qc /\
  (cy - h / 2 ≤ snd p)%Qc /\ (snd p ≤ cy + h / 2)%Qc.

(** The vertices of a polygon after a geometric transform: the slice of the
    transformed keypoints the split records, normalized and clamped. *)
Definition clamped_vertices (new_w new_h : Qc) (t_keypoints : list (Qc * Qc))
  (s : Z * Z * Z) : list (Qc * Qc) :=
  let '(_, start, len) := s in
  map (fun p => (clamp01 (fst p / new_w), clamp01 (snd p / new_h))%Qc)
      (py_slice t_keypoints (Some start) (Some (start + len))).

(** What the geometric path emits for the polygon of split [s]. *)
Definition geo_poly_spec (new_w new_h : Qc) (t_keypoints : list (Qc * Qc))
  (s : Z * Z * Z) (lab : label Qc) : Prop :=
  let norm := clamped_vertices new_w new_h t_keypoints s in
  lab_class lab = fst (fst s) /\
  Forall (fun p => in01 (fst p) /\ in01 (snd p)) norm /\
  if decide (3 <= length norm)%nat
  then lab_bbox lab = None /\ lab_poly lab = Some norm
  else exists b, extent_bbox norm = Ok b /\ Forall (covers b) norm /\
                 lab_bbox lab = Some b /\ lab_poly lab = None.

(** A normalized box as pixel corners, and normalized points as pixels
    (lines 452-460). *)
Definition to_pascal (orig_w orig_h : Qc) (b : Qc * Qc * Qc * Qc) : bbox_pascal :=
  let '(cx, cy, bw, bh) := b in
  ((cx - bw / 2) * orig_w, (cy - bh / 2) * orig_h,
   (cx + bw / 2) * orig_w, (cy + bh / 2) * orig_h)%Qc.

Definition to_pixels (orig_w orig_h : Qc) (poly : list (Qc * Qc)) : list (Qc * Qc) :=
  map (fun p => (fst p * orig_w, snd p * orig_h)%Qc) poly.

(** The splits of consecutive polygons, the first one starting at [start]. *)
Fixpoint split_offsets (start : Z) (polys : list (Z * list (Qc * Qc)))
  : list (Z * Z * Z) :=
  match polys with
  | [] => []
  | (cls, poly) :: rest =>
      (cls, start, Z.of_nat (length poly))
      :: split_offsets (start + Z.of_nat (length poly)) rest
  end.

(** What the photometric path emits for a polygon input: the polygon itself
    when it has at least 3 vertices, the box of its extent otherwise. *)
Definition photo_poly_expected (input : Z * list (Qc * Qc)) : result (label Qc) :=
  let '(cls, poly) := input in
  if (3 <=? length poly)%nat then Ok (Label cls None (Some poly))
  else b ← extent_bbox poly; Ok (Label cls (Some b) None).

(** The conditions under which the conversion cannot go through: the
    document is missing, it is not a JSON document, it lacks one of its three
    top-level keys, or anything at all raises inside the [try] block (an
    unreadable image, an annotation of an unknown image or category, a
    division by a zero width, ...). *)
Inductive unexpected_condition {PF : Platform} (coco_json output_dir : string)
  (train_ratio val_ratio : Qc) (w : world) : Prop :=
  | document_missing :
      files w !! coco_json = None ->
      unexpected_condition coco_json output_dir train_ratio val_ratio w
  | document_not_json f :
      files w !! coco_json = Some f -> (forall doc, f <> FJson doc) ->
      unexpected_condition coco_json output_dir train_ratio val_ratio w
  | document_lacks_key doc :
      files w !! coco_json = Some (FJson doc) ->
      coco_images doc = None \/ coco_annotations doc = None \/
      coco_categories doc = None ->
      unexpected_condition coco_json output_dir train_ratio val_ratio w
  | exception_raised exc w' :
      convert_body coco_json output_dir train_ratio val_ratio w = (Raise exc, w') ->
      unexpected_condition coco_json output_dir train_ratio val_ratio w.

(** [m] writes nothing to the log. *)
Definition keeps_logs {A} (m : io A) : Prop :=
  forall w r w', m w = (r, w') -> logs w' = logs w.



Section Outputs.
Context {PF : Platform} {AU : Augmenter}.






End Outputs.

(** A token of a label line: not empty, and without whitespace. *)
Fixpoint no_space (s : string) : bool :=
  match s with
  | EmptyString => true
  | String c s' => negb (is_space c) && no_space s'
  end.

Definition is_word (s : string) : bool :=
  match s with
  | EmptyString => false
  | _ => no_space s
  end.

(** The numbers [save_yolo_label] formats for a label, in the order of the
    line. *)
Definition label_numbers {num} (lab : label num) : list num :=
  match lab_bbox lab, lab_poly lab with
  | Some (cx, cy, w, h), _ => [cx; cy; w; h]
  | None, Some poly => flat_points poly
  | None, None => []
  end.

(** The label [parse_yolo_label] reads from the line written for [lab], when
    a number [x] is read back as [r x]: a polygon of exactly two vertices has
    four numbers on its line and comes back as a bbox. *)
Definition reread {num} (r : num -> num) (lab : label num) : label num :=
  match lab_bbox lab, lab_poly lab with
  | Some (cx, cy, w, h), _ => Label (lab_class lab) (Some (r cx, r cy, r w, r h)) None
  | None, Some [p; q] =>
      Label (lab_class lab) (Some (r (fst p), r (snd p), r (fst q), r (snd q))) None
  | None, Some poly =>
      Label (lab_class lab) None (Some (map (fun p => (r (fst p), r (snd p))) poly))
  | None, None => lab
  end.

(** [save_yolo_label] writes a line for the label: it has a bbox or a
    polygon. *)
Definition has_shape {num} (lab : label num) : bool :=
  match lab_bbox lab, lab_poly lab with
  | None, None => false
  | _, _ => true
  end.

(** The class and the numbers of the label are written as single tokens, and
    the parsers read the class back as it is and a number [x] as [r x]. *)
Definition readable {PF : Platform} (r : Qc -> Qc) (lab : label Qc) : Prop :=
  is_word (fmt_int (lab_class lab)) = true /\
  int_of_string (fmt_int (lab_class lab)) = Some (lab_class lab) /\
  Forall (fun x => is_word (fmt6 x) = true /\ float_of_string (fmt6 x) = Some (r x))
         (label_numbers lab).

(** [m] leaves every path outside [P] as it is. *)
Definition keeps_outside {A} (P : string -> Prop) (m : io A) : Prop :=
  forall w r w' p, m w = (r, w') -> ~ P p -> files w' !! p = files w !! p.

(** The paths the converter writes: the image and label folders of the three
    splits, [classes.txt] and [data.yaml] under the output directory. *)
Definition converter_output {PF : Platform} (output_dir p : string) : Prop :=
  (exists split kind name,
     split ∈ ["train"; "valid"; "test"] /\ kind ∈ ["images"; "labels"] /\
     p = path_join (path_join (path_join output_dir split) kind) name) \/
  p = path_join output_dir "classes.txt" \/
  p = path_join output_dir "data.yaml".

(** The paths the augmentation of a split writes: files of its output
    image folder and of its output label folder. *)
Definition augment_output {PF : Platform} (out_img_dir out_lbl_dir p : string)
  : Prop :=
  exists name, p = path_join out_img_dir name \/ p = path_join out_lbl_dir name.

(** No file of the directory is taken for an annotation document. *)
Definition no_candidate (dir : string * list string) : Prop :=
  Forall (fun file => is_candidate file = false) (snd dir).



(** * Properties *)

(** ** Loops and monadic maps *)

Lemma fold_left_append {A B} (f : A -> B) (l : list A) (acc : list B) :
  fold_left (fun new x => new ++ [f x]) l acc = acc ++ map f l.
Proof.
  revert acc. induction l as [|x l IH]; intros acc; simpl.
  - by rewrite app_nil_r.
  - rewrite IH, <- app_assoc. reflexivity.
Qed.

Lemma for_each_append {A B} (f : A -> result B) (l : list A) (acc : list B) :
  for_each (fun new x => y ← f x; Ok (new ++ [y])) l acc =
  (ys ← mapM f l; Ok (acc ++ ys)).
Proof.
  revert acc. induction l as [|x l IH]; intros acc; simpl.
  - by rewrite app_nil_r.
  - destruct (f x) as [y|e]; simpl; [| reflexivity].
    rewrite IH. destruct (mapM f l) as [ys|e]; simpl; [| reflexivity].
    by rewrite <- app_assoc.
Qed.

Lemma mapM_result_Forall2 {A B} (f : A -> result B) (P : A -> B -> Prop)
  (l : list A) :
  Forall (fun x => exists y, f x = Ok y /\ P x y) l ->
  exists ys, mapM f l = Ok ys /\ Forall2 P l ys.
Proof.
  induction 1 as [|x l (y & Hy & HP) _ (ys & Hys & HF)]; simpl.
  - exists []. split; [reflexivity | constructor].
  - exists (y :: ys). rewrite Hy. simpl. rewrite Hys. simpl.
    split; [reflexivity | by constructor].
Qed.

Lemma bbox_labels_map new_w new_h bboxes classes :
  bbox_labels new_w new_h bboxes classes =
  map (bbox_label new_w new_h) (zip bboxes classes).
Proof. unfold bbox_labels. by rewrite fold_left_append. Qed.

Lemma reconstruct_polygons_map kps splits :
  reconstruct_polygons_from_keypoints kps splits =
  map (fun s => (fst (fst s),
                 py_slice kps (Some (snd (fst s))) (Some (snd (fst s) + snd s))))
      splits.
Proof.
  unfold reconstruct_polygons_from_keypoints.
  enough (Hgen : forall acc : list (Z * list (Qc * Qc)),
    fold_left
      (fun polys s =>
         let '(cls, start, length) := s in
         let pts := py_slice kps (Some start) (Some (start + length)) in
         polys ++ [(cls, pts)]) splits acc =
    acc ++ map (fun s => (fst (fst s),
                          py_slice kps (Some (snd (fst s)))
                                   (Some (snd (fst s) + snd s)))) splits)
    by apply (Hgen []).
  induction splits as [|[[cls start] len] splits IH]; intros acc; simpl.
  - by rewrite app_nil_r.
  - rewrite IH, <- app_assoc. reflexivity.
Qed.


Lemma mapM_result_ext {A B C} (f : A -> result C) (g : B -> result C)
  (la : list A) (lb : list B) :
  Forall2 (fun a b => f a = g b) la lb -> mapM f la = mapM g lb.
Proof.
  induction 1 as [|a b la lb Hab _ IH]; simpl; [done |]. by rewrite Hab, IH.
Qed.


Lemma zip_map_map {A B C} (f : A -> B) (g : A -> C) (l : list A) :
  zip (map f l) (map g l) = map (fun x => (f x, g x)) l.
Proof. induction l as [|x l IH]; simpl; [done | by rewrite IH]. Qed.

Lemma io_bind_unfold {A B} (m : io A) (f : A -> io B) w :
  (m ≫= f) w =
  match m w with
  | (Ok a, w') => f a w'
  | (Raise e, w') => (Raise e, w')
  end.
Proof. reflexivity. Qed.

(** ** LabelCodec *)

Lemma list_pair_ind {A} (P : list A -> Prop) :
  P [] -> (forall x, P [x]) -> (forall x y l, P l -> P (x :: y :: l)) ->
  forall l, P l.
Proof.
  intros H0 H1 H2. fix IH 1.
  intros [|x [|y l]]; [exact H0 | apply H1 | apply H2, IH].
Qed.

Lemma pair_up_odd {A} (l : list A) :
  Nat.Odd (length l) -> pair_up l = None.
Proof.
  induction l as [| x | x y l IH] using list_pair_ind; intros [k Hk]; simpl in *.
  - lia.
  - reflexivity.
  - rewrite IH; [reflexivity | exists (k - 1)%nat; lia].
Qed.

Lemma pair_up_even {A} (l : list A) :
  Nat.Even (length l) ->
  exists ps, pair_up l = Some ps /\ (length l = 2 * length ps)%nat /\
             flat_points ps = l.
Proof.
  induction l as [| x | x y l IH] using list_pair_ind; intros [k Hk]; simpl in *.
  - exists []. auto.
  - lia.
  - destruct IH as (ps & Hps & Hlen & Hflat); [exists (k - 1)%nat; lia |].
    exists ((x, y) :: ps). rewrite Hps. simpl.
    repeat split; [lia | unfold flat_points in *; simpl; congruence].
Qed.

Section LabelCodecFacts.
Context {num : Type}.
Variable int_of_string : string -> option Z.
Variable float_of_string : string -> option num.

#[local] Abbreviation parse := (parse_yolo_label int_of_string float_of_string).

(** What [parse_yolo_label] does once the class token and the numeric tokens
    have been read. *)
Lemma parse_tokens line c toks cls coords :
  split line = c :: toks ->
  int_of_string c = Some cls ->
  mapM float_of_string toks = Some coords ->
  parse line =
    match coords with
    | [cx; cy; w; h] => Ok (Label cls (Some (cx, cy, w, h)) None)
    | _ => poly ← or_raise IndexError (pair_up coords);
           Ok (Label cls None (Some poly))
    end.
Proof.
  intros Hs Hc Hf. unfold parse_yolo_label. rewrite Hs, Hc. simpl.
  rewrite Hf. reflexivity.
Qed.

(** C7. A line with exactly four numeric fields after the class token
    parses as a bbox label (never as a two-point polygon), and a line with
    exactly six parses as a polygon label of exactly three points, the
    fields taken in pairs. *)
Theorem parse_four_is_bbox_six_is_triangle line c toks cls coords :
  split line = c :: toks ->
  int_of_string c = Some cls ->
  mapM float_of_string toks = Some coords ->
  (length toks = 4%nat ->
   exists cx cy w h,
     coords = [cx; cy; w; h] /\
     parse line = Ok (Label cls (Some (cx, cy, w, h)) None)) /\
  (length toks = 6%nat ->
   exists p1 p2 p3,
     coords = flat_points [p1; p2; p3] /\
     parse line = Ok (Label cls None (Some [p1; p2; p3]))).
Proof.
  intros Hs Hc Hf.
  assert (Hlen : length coords = length toks).
  { symmetry. eapply length_mapM. apply Hf. }
  rewrite (parse_tokens _ _ _ _ _ Hs Hc Hf).
  split; intros Hn; rewrite Hn in Hlen.
  - destruct coords as [|cx [|cy [|w [|h [|? ?]]]]]; simplify_eq/=.
    eauto 10.
  - destruct coords as [|a [|b [|c' [|d [|e [|f [|? ?]]]]]]]; simplify_eq/=.
    exists (a, b), (c', d), (e, f). split; reflexivity.
Qed.

(** C3, as the code has it.  [parse_yolo_label] raises (an [IndexError])
    whenever the count of numeric tokens after the class index is odd; for
    an even count other than 4, the counts 0 and 2 included, it returns a
    polygon label with half as many points. *)
Theorem parse_raises_on_odd_count_only line c toks cls coords :
  split line = c :: toks ->
  int_of_string c = Some cls ->
  mapM float_of_string toks = Some coords ->
  (Nat.Odd (length toks) -> parse line = Raise IndexError) /\
  (Nat.Even (length toks) -> length toks <> 4%nat ->
   exists poly,
     parse line = Ok (Label cls None (Some poly)) /\
     (length toks = 2 * length poly)%nat /\
     flat_points poly = coords).
Proof.
  intros Hs Hc Hf.
  assert (Hlen : length coords = length toks).
  { symmetry. eapply length_mapM. apply Hf. }
  rewrite (parse_tokens _ _ _ _ _ Hs Hc Hf), <- Hlen.
  split.
  - intros Hodd. rewrite (pair_up_odd _ Hodd).
    destruct coords as [|? [|? [|? [|? [|? ?]]]]]; try reflexivity.
    destruct Hodd as [k Hk]. simpl in Hk. lia.
  - intros Heven Hne.
    destruct (pair_up_even _ Heven) as (ps & Hps & Hl & Hflat).
    exists ps. rewrite Hps.
    destruct coords as [|? [|? [|? [|? [|? ?]]]]]; simpl in *; try done.
Qed.

End LabelCodecFacts.

(** C7 at the line [3 0.5 0.5 0.25 0.125]. *)
Lemma parse_four_is_bbox_six_is_triangle_witness :
  exists coords,
    mapM Demo.parse_float ["0.5"; "0.5"; "0.25"; "0.125"] = Some coords /\
    ((length ["0.5"; "0.5"; "0.25"; "0.125"] = 4%nat ->
      exists cx cy w h,
        coords = [cx; cy; w; h] /\
        parse_yolo_label Demo.parse_int Demo.parse_float "3 0.5 0.5 0.25 0.125"
        = Ok (Label 3 (Some (cx, cy, w, h)) None)) /\
     (length ["0.5"; "0.5"; "0.25"; "0.125"] = 6%nat ->
      exists p1 p2 p3,
        coords = flat_points [p1; p2; p3] /\
        parse_yolo_label Demo.parse_int Demo.parse_float "3 0.5 0.5 0.25 0.125"
        = Ok (Label 3 None (Some [p1; p2; p3])))).
Proof.
  eexists. split; [reflexivity |].
  apply (parse_four_is_bbox_six_is_triangle Demo.parse_int Demo.parse_float
           "3 0.5 0.5 0.25 0.125" "3" ["0.5"; "0.5"; "0.25"; "0.125"] 3);
    reflexivity.
Defined.

(** C3 at the line [0 0.5 0.5]. *)
Lemma parse_raises_on_odd_count_only_witness :
  (Nat.Odd (length ["0.5"; "0.5"]) ->
   parse_yolo_label Demo.parse_int Demo.parse_float "0 0.5 0.5" = Raise IndexError) /\
  (Nat.Even (length ["0.5"; "0.5"]) -> length ["0.5"; "0.5"] <> 4%nat ->
   exists poly,
     parse_yolo_label Demo.parse_int Demo.parse_float "0 0.5 0.5"
     = Ok (Label 0 None (Some poly)) /\
     (length ["0.5"; "0.5"] = 2 * length poly)%nat /\
     flat_points poly = [qc 1 2; qc 1 2]).
Proof.
  apply (parse_raises_on_odd_count_only Demo.parse_int Demo.parse_float
           "0 0.5 0.5" "0" ["0.5"; "0.5"] 0 [qc 1 2; qc 1 2]);
    reflexivity.
Defined.

(** C3 as stated fails: with two floats after the class index
    ([0 0.5 0.5]) and with none ([0]) the parser returns a label, a polygon
    of one point and of no point. *)
Lemma parse_accepts_zero_and_two_floats :
  (split "0 0.5 0.5" = ["0"; "0.5"; "0.5"] /\
   is_Some (mapM Demo.parse_float ["0.5"; "0.5"]) /\
   exists lab,
     parse_yolo_label Demo.parse_int Demo.parse_float "0 0.5 0.5" = Ok lab /\
     lab_bbox lab = None /\ length <$> lab_poly lab = Some 1%nat) /\
  (split "0" = ["0"] /\
   exists lab,
     parse_yolo_label Demo.parse_int Demo.parse_float "0" = Ok lab /\
     lab_bbox lab = None /\ length <$> lab_poly lab = Some 0%nat).
Proof.
  split; [split; [reflexivity | split; [eexists; reflexivity |]] | split; [reflexivity |]];
    eexists; repeat split.
Qed.

(** ** Python dicts *)

Lemma dict_keys_set {V} k (v : V) d :
  dict_keys (dict_set k v d) =
    if bool_decide (k ∈ dict_keys d) then dict_keys d else dict_keys d ++ [k].
Proof.
  induction d as [|[k' v'] d IH]; simpl; [reflexivity |].
  destruct (decide (k = k')) as [->|Hne]; simpl.
  - rewrite bool_decide_eq_true_2 by constructor. reflexivity.
  - rewrite IH. destruct (decide (k ∈ dict_keys d)) as [Hin|Hin].
    + rewrite !bool_decide_eq_true_2; [reflexivity | by constructor | done].
    + rewrite !bool_decide_eq_false_2; [reflexivity | | done].
      unfold dict_keys. simpl. rewrite elem_of_cons. tauto.
Qed.

Lemma dict_set_fresh {V} k (v : V) d :
  k ∉ dict_keys d -> dict_set k v d = d ++ [(k, v)].
Proof.
  induction d as [|[k' v'] d IH]; simpl; [reflexivity |].
  unfold dict_keys. simpl. rewrite not_elem_of_cons. intros [Hne Hin].
  rewrite decide_False by done. rewrite IH by done. reflexivity.
Qed.

Lemma dict_set_NoDup {V} k (v : V) d :
  NoDup (dict_keys d) -> NoDup (dict_keys (dict_set k v d)).
Proof.
  intros Hd. rewrite dict_keys_set. case_bool_decide; [done |].
  apply NoDup_app. repeat split; [done | | apply NoDup_singleton].
  intros x Hx Hx'. apply list_elem_of_singleton in Hx'. congruence.
Qed.

Lemma dict_fold_NoDup {V} (kvs acc : list (Z * V)) :
  NoDup (dict_keys acc) ->
  NoDup (dict_keys (fold_left (fun d kv => dict_set (fst kv) (snd kv) d) kvs acc)).
Proof.
  revert acc. induction kvs as [|kv kvs IH]; intros acc Hacc; simpl; [done |].
  apply IH, dict_set_NoDup, Hacc.
Qed.

(** The keys of a dict are pairwise distinct. *)
Lemma dict_of_list_NoDup {V} (kvs : list (Z * V)) :
  NoDup (dict_keys (dict_of_list kvs)).
Proof. apply dict_fold_NoDup. constructor. Qed.

Lemma dict_fold_fresh {V} (kvs acc : list (Z * V)) :
  NoDup (dict_keys (acc ++ kvs)) ->
  fold_left (fun d kv => dict_set (fst kv) (snd kv) d) kvs acc = acc ++ kvs.
Proof.
  revert acc. induction kvs as [|[k v] kvs IH]; intros acc Hnd; simpl.
  - by rewrite app_nil_r.
  - rewrite dict_set_fresh.
    + rewrite IH; rewrite <- app_assoc; [reflexivity | exact Hnd].
    + unfold dict_keys in Hnd. rewrite map_app in Hnd.
      apply NoDup_app in Hnd as (_ & Hdisj & _).
      intros Hin. apply (Hdisj k Hin). simpl. constructor.
Qed.

(** Building a dict from pairs with distinct keys keeps the pairs in
    order. *)
Lemma dict_of_list_fresh {V} (kvs : list (Z * V)) :
  NoDup (map fst kvs) -> dict_of_list kvs = kvs.
Proof. intros Hnd. unfold dict_of_list. by rewrite dict_fold_fresh. Qed.

Lemma dict_get_Some {V} k (v : V) d :
  dict_get k d = Some v -> (k, v) ∈ d.
Proof.
  induction d as [|[k' v'] d IH]; simpl; [done |].
  case_decide; intros Hg.
  - simplify_eq. constructor.
  - constructor. auto.
Qed.

Lemma dict_get_is_Some {V} k (d : list (Z * V)) :
  k ∈ dict_keys d -> is_Some (dict_get k d).
Proof.
  induction d as [|[k' v'] d IH]; simpl.
  - intros Hin. by apply elem_of_nil in Hin.
  - unfold dict_keys. simpl. rewrite elem_of_cons. intros [->|Hin].
    + rewrite decide_True by done. eauto.
    + case_decide; eauto.
Qed.

(** ** FormatConverter: the category index *)

Lemma imap_keys_fst (ks : list Z) (f : nat -> Z) :
  map fst (imap (fun idx k => (k, f idx)) ks) = ks.
Proof.
  revert f. induction ks as [|k ks IH]; intros f; simpl; [reflexivity |].
  f_equal. apply (IH (f ∘ S)).
Qed.

(** The class index of a category is its position among the keys of
    [categories], that is, in the order in which the document first lists
    the category ids. *)
Lemma category_mapping_document_order (categories : list (Z * string)) :
  NoDup (dict_keys categories) ->
  category_mapping categories =
    imap (fun idx cat => (cat, Z.of_nat idx)) (dict_keys categories).
Proof.
  intros Hnd. unfold category_mapping. apply dict_of_list_fresh.
  by rewrite imap_keys_fst.
Qed.

Lemma dict_get_imap (ks : list Z) (f : nat -> Z) i k :
  NoDup ks -> ks !! i = Some k ->
  dict_get k (imap (fun idx k' => (k', f idx)) ks) = Some (f i).
Proof.
  revert f i. induction ks as [|k0 ks IH]; intros f i Hnd Hi; simpl; [done |].
  apply NoDup_cons in Hnd as [Hnotin Hnd].
  destruct i as [|i]; simpl in Hi.
  - simplify_eq. by rewrite decide_True.
  - rewrite decide_False.
    + apply (IH (f ∘ S) i Hnd Hi).
    + intros ->. apply Hnotin. eapply list_elem_of_lookup_2, Hi.
Qed.

Lemma category_mapping_lookup (cats : list category) i k :
  let categories := dict_of_list (map (fun c => (cat_id c, cat_name c)) cats) in
  dict_keys categories !! i = Some k ->
  dict_get k (category_mapping categories) = Some (Z.of_nat i).
Proof.
  intros categories Hi.
  rewrite category_mapping_document_order by apply dict_of_list_NoDup.
  apply (dict_get_imap _ Z.of_nat); [apply dict_of_list_NoDup | done].
Qed.

(** C1 on the code: for the document whose categories are listed as
    [{id: 2, name: dog}, {id: 1, name: cat}], category 2 gets class index 0
    (its position in the document, not its rank 1 among the ids), while the
    name list of [classes.txt] and of the manifest is sorted by id, so index
    0 names [cat]: a label line written for a dog points at [cat]. *)
Theorem category_index_mismatch_on_unsorted_document :
  let categories :=
    dict_of_list (map (fun c => (cat_id c, cat_name c))
                      [Category 2 "dog"; Category 1 "cat"]) in
  dict_get 2 (category_mapping categories) = Some 0 /\
  dict_get 2 categories = Some "dog" /\
  class_names categories = Ok ["cat"; "dog"] /\
  (names ← class_names categories; or_raise IndexError (names !! 0%nat))
  = Ok "cat".
Proof. repeat split. Qed.

(** The whole conversion of a document that lists its categories as dog
    (id 2), cat (id 1), with one annotated dog: the label line carries class
    index 0 and the manifest names index 0 [cat]. *)
Lemma conversion_mislabels_unsorted_categories :
  let doc :=
    CocoDoc (Some [ImageInfo 1 "a.jpg" (Some (JInt 100)) (Some (JInt 50))])
            (Some [Annotation 1 2 None (Some [JInt 10; JInt 10; JInt 20; JInt 20])])
            (Some [Category 2 "dog"; Category 1 "cat"]) in
  let w := World {["in/coco.json" := FJson doc]} [] in
  let out :=
    coco_to_yolo_noninteractive (PF := Demo.platform)
      "in/coco.json" "out" (qc 7 10) (qc 2 10) w in
  fst out = (true, 0, 0, 1, ["cat"; "dog"]) /\
  files (snd out) !! "out/test/labels/a.txt"
  = Some (FText ["0 0.200000 0.400000 0.200000 0.400000"]) /\
  yaml_names <$> (match files (snd out) !! "out/data.yaml" with
                  | Some (FYaml cfg) => Some cfg
                  | _ => None
                  end) = Some ["cat"; "dog"].
Proof. vm_compute. repeat split. Qed.

(** ** FormatConverter: documents that list their categories in ascending
    order *)

Lemma class_names_of_dict (d : list (Z * string)) :
  NoDup (dict_keys d) ->
  mapM (fun k => or_raise KeyError (dict_get k d)) (dict_keys d) = Ok (map snd d).
Proof.
  induction d as [|[k v] d IH]; simpl; [done |].
  intros [Hnotin Hnd]%NoDup_cons. rewrite decide_True by done. simpl.
  rewrite (mapM_result_ext _ (fun k' => or_raise KeyError (dict_get k' d))
             (dict_keys d) (dict_keys d)).
  - by rewrite IH.
  - apply Forall_Forall2_diag, Forall_forall. intros k' Hk'.
    rewrite decide_False; [done |]. intros ->. by apply Hnotin.
Qed.

Lemma StronglySorted_lt_le (l : list Z) :
  StronglySorted Z.lt l -> StronglySorted Z.le l /\ NoDup l.
Proof.
  induction 1 as [|x l Hl [IH1 IH2] Hx]; split; try constructor; try done.
  - eapply Forall_impl; [exact Hx |]. simpl. lia.
  - intros Hin. rewrite Forall_forall in Hx. specialize (Hx x Hin). lia.
Qed.

(** When the document lists its categories in strictly ascending id order,
    the class index of a category is its rank and the name list names it at
    that index. *)
Lemma class_index_names_agree_on_sorted_document (cats : list category) :
  StronglySorted Z.lt (map cat_id cats) ->
  let categories := dict_of_list (map (fun c => (cat_id c, cat_name c)) cats) in
  class_names categories = Ok (map cat_name cats) /\
  forall i c, cats !! i = Some c ->
    dict_get (cat_id c) (category_mapping categories) = Some (Z.of_nat i).
Proof.
  intros Hsorted categories.
  destruct (StronglySorted_lt_le _ Hsorted) as [Hle Hnd].
  assert (Hcat : categories = map (fun c => (cat_id c, cat_name c)) cats).
  { apply dict_of_list_fresh. by rewrite map_map. }
  assert (Hkeys : dict_keys categories = map cat_id cats).
  { rewrite Hcat. unfold dict_keys. by rewrite map_map. }
  split.
  - unfold class_names.
    assert (Hsort : merge_sort Z.le (dict_keys categories) = dict_keys categories).
    { apply (StronglySorted_unique Z.le).
      - apply StronglySorted_merge_sort; apply _.
      - by rewrite Hkeys.
      - apply merge_sort_Permutation. }
    rewrite Hsort, class_names_of_dict by (by rewrite Hkeys).
    rewrite Hcat. by rewrite map_map.
  - intros i c Hi. apply category_mapping_lookup.
    fold categories. rewrite Hkeys. by rewrite list_lookup_fmap, Hi.
Qed.

(** ** FormatConverter: the split assignment *)



Lemma clip_index_nonneg len i : 0 <= i -> clip_index len i = Z.min i len.
Proof. intros Hi. unfold clip_index. destruct (Z.ltb_spec i 0); [lia | done]. Qed.



Lemma py_slice_middle {A} (l : list A) a b :
  0 <= a -> 0 <= b ->
  py_slice l (Some a) (Some (a + b)) = take (Z.to_nat b) (drop (Z.to_nat a) l).
Proof.
  intros Ha Hb. unfold py_slice. simpl. rewrite !clip_index_nonneg by lia.
  destruct (Z.le_gt_cases a (Z.of_nat (length l))).
  - rewrite (Z.min_l a) by done.
    destruct (Z.le_gt_cases (a + b) (Z.of_nat (length l))).
    + f_equal. lia.
    + rewrite !take_ge; [done | rewrite length_drop; lia | rewrite length_drop; lia].
  - rewrite !drop_ge by lia. by rewrite !take_nil.
Qed.



Section SplitAssignment.
Context {PF : Platform}.
Hypothesis shuffle_permutes : forall ids : list Z, shuffle ids ≡ₚ ids.


End SplitAssignment.



(** ** Minimum and maximum *)

Lemma Qc_min_le_l a b : (Qc_min a b ≤ a)%Qc.
Proof.
  unfold Qc_min. case_decide; [by apply Qclt_le_weak | apply Qcle_refl].
Qed.

Lemma Qc_min_le_r a b : (Qc_min a b ≤ b)%Qc.
Proof.
  unfold Qc_min. case_decide; [apply Qcle_refl | by apply Qcnot_lt_le].
Qed.

Lemma Qc_max_ge_l a b : (a ≤ Qc_max a b)%Qc.
Proof.
  unfold Qc_max. case_decide; [by apply Qclt_le_weak | apply Qcle_refl].
Qed.

Lemma Qc_max_ge_r a b : (b ≤ Qc_max a b)%Qc.
Proof.
  unfold Qc_max. case_decide; [apply Qcle_refl | by apply Qcnot_lt_le].
Qed.

Lemma fold_min_le l a :
  (fold_left Qc_min l a ≤ a)%Qc /\ Forall (fun x => (fold_left Qc_min l a ≤ x)%Qc) l.
Proof.
  revert a. induction l as [|x l IH]; intros a; simpl.
  - split; [apply Qcle_refl | constructor].
  - destruct (IH (Qc_min a x)) as [H1 H2]. split; [| constructor; [| done]].
    + eapply Qcle_trans; [exact H1 | apply Qc_min_le_l].
    + eapply Qcle_trans; [exact H1 | apply Qc_min_le_r].
Qed.

Lemma fold_max_ge l a :
  (a ≤ fold_left Qc_max l a)%Qc /\ Forall (fun x => (x ≤ fold_left Qc_max l a)%Qc) l.
Proof.
  revert a. induction l as [|x l IH]; intros a; simpl.
  - split; [apply Qcle_refl | constructor].
  - destruct (IH (Qc_max a x)) as [H1 H2]. split; [| constructor; [| done]].
    + eapply Qcle_trans; [apply Qc_max_ge_l | exact H1].
    + eapply Qcle_trans; [apply Qc_max_ge_r | exact H1].
Qed.

Lemma list_min_le xs m : list_min xs = Ok m -> Forall (fun x => (m ≤ x)%Qc) xs.
Proof.
  destruct xs as [|x xs]; simpl; intros Hm; simplify_eq.
  destruct (fold_min_le xs x). by constructor.
Qed.

Lemma list_max_ge xs m : list_max xs = Ok m -> Forall (fun x => (x ≤ m)%Qc) xs.
Proof.
  destruct xs as [|x xs]; simpl; intros Hm; simplify_eq.
  destruct (fold_max_ge xs x). by constructor.
Qed.

Lemma Qc_min_scale a b w : (0 < w)%Qc -> Qc_min (a * w) (b * w) = (Qc_min a b * w)%Qc.
Proof.
  intros Hw. unfold Qc_min.
  destruct (decide (b < a)%Qc) as [Hlt|Hnlt].
  - rewrite decide_True; [done | by apply Qcmult_lt_mono_pos_r].
  - rewrite decide_False; [done |].
    intros Hlt. apply Hnlt. by apply (Qcmult_lt_mono_pos_r _ _ w).
Qed.

Lemma Qc_max_scale a b w : (0 < w)%Qc -> Qc_max (a * w) (b * w) = (Qc_max a b * w)%Qc.
Proof.
  intros Hw. unfold Qc_max.
  destruct (decide (a < b)%Qc) as [Hlt|Hnlt].
  - rewrite decide_True; [done | by apply Qcmult_lt_mono_pos_r].
  - rewrite decide_False; [done |].
    intros Hlt. apply Hnlt. by apply (Qcmult_lt_mono_pos_r _ _ w).
Qed.

Lemma list_min_scale xs w :
  (0 < w)%Qc ->
  list_min (map (fun x => x * w)%Qc xs) = (fun m => (m * w)%Qc) <$> list_min xs.
Proof.
  intros Hw. destruct xs as [|x xs]; simpl; [reflexivity |]. f_equal.
  revert x. induction xs as [|y xs IH]; intros x; simpl; [reflexivity |].
  rewrite Qc_min_scale by done. apply IH.
Qed.

Lemma list_max_scale xs w :
  (0 < w)%Qc ->
  list_max (map (fun x => x * w)%Qc xs) = (fun m => (m * w)%Qc) <$> list_max xs.
Proof.
  intros Hw. destruct xs as [|x xs]; simpl; [reflexivity |]. f_equal.
  revert x. induction xs as [|y xs IH]; intros x; simpl; [reflexivity |].
  rewrite Qc_max_scale by done. apply IH.
Qed.

Lemma Qc_pos_neq_0 (w : Qc) : (0 < w)%Qc -> w <> 0%Qc.
Proof. intros Hw ->. by apply (Qclt_not_eq 0 0). Qed.

(** [polygon_to_bbox_norm] on points scaled up to pixels gives the extent of
    the normalized points. *)
Lemma polygon_to_bbox_norm_scaled pts w h :
  (0 < w)%Qc -> (0 < h)%Qc ->
  polygon_to_bbox_norm (map (fun p => (fst p * w, snd p * h)%Qc) pts) w h =
  extent_bbox pts.
Proof.
  intros Hw Hh. unfold polygon_to_bbox_norm, extent_bbox.
  rewrite !map_map. simpl.
  rewrite <- (map_map fst (fun x => x * w)%Qc), <- (map_map snd (fun y => y * h)%Qc).
  rewrite !list_min_scale, !list_max_scale by done.
  destruct (list_min (map fst pts)) as [x1|e]; simpl; [| reflexivity].
  destruct (list_max (map fst pts)) as [x2|e]; simpl; [| reflexivity].
  destruct (list_min (map snd pts)) as [y1|e]; simpl; [| reflexivity].
  destruct (list_max (map snd pts)) as [y2|e]; simpl; [| reflexivity].
  pose proof (Qc_pos_neq_0 _ Hw). pose proof (Qc_pos_neq_0 _ Hh).
  assert (E1 : ((x1 * w + x2 * w) / 2 / w = (x1 + x2) / 2)%Qc) by (field; done).
  assert (E2 : ((y1 * h + y2 * h) / 2 / h = (y1 + y2) / 2)%Qc) by (field; done).
  assert (E3 : ((x2 * w - x1 * w) / w = x2 - x1)%Qc) by (field; done).
  assert (E4 : ((y2 * h - y1 * h) / h = y2 - y1)%Qc) by (field; done).
  by rewrite E1, E2, E3, E4.
Qed.

Lemma extent_bbox_nonempty pts :
  pts <> [] -> exists b, extent_bbox pts = Ok b /\ Forall (covers b) pts.
Proof.
  intros Hne. unfold extent_bbox.
  destruct (list_min (map fst pts)) as [x1|] eqn:Hx1; [| by destruct pts].
  destruct (list_max (map fst pts)) as [x2|] eqn:Hx2; [| by destruct pts].
  destruct (list_min (map snd pts)) as [y1|] eqn:Hy1; [| by destruct pts].
  destruct (list_max (map snd pts)) as [y2|] eqn:Hy2; [| by destruct pts].
  simpl. eexists. split; [reflexivity |].
  apply list_min_le in Hx1, Hy1. apply list_max_ge in Hx2, Hy2.
  rewrite Forall_map in Hx1, Hx2, Hy1, Hy2.
  apply Forall_forall. intros p Hp. unfold covers.
  replace ((x1 + x2) / 2 - (x2 - x1) / 2)%Qc with x1 by (field; done).
  replace ((x1 + x2) / 2 + (x2 - x1) / 2)%Qc with x2 by (field; done).
  replace ((y1 + y2) / 2 - (y2 - y1) / 2)%Qc with y1 by (field; done).
  replace ((y1 + y2) / 2 + (y2 - y1) / 2)%Qc with y2 by (field; done).
  rewrite Forall_forall in Hx1, Hx2, Hy1, Hy2. naive_solver.
Qed.

Lemma clamp01_in01 v : in01 (clamp01 v).
Proof.
  unfold in01, clamp01. split; [apply Qc_max_ge_r |].
  unfold Qc_max. case_decide; [done |]. apply Qc_min_le_r.
Qed.

(** ** GeometryEngine: polygons under a geometric transform *)

Lemma geo_poly_label_spec new_w new_h t_keypoints s :
  (0 < new_w)%Qc -> (0 < new_h)%Qc ->
  clamped_vertices new_w new_h t_keypoints s <> [] ->
  exists lab,
    geo_poly_label new_w new_h
      (fst (fst s),
       py_slice t_keypoints (Some (snd (fst s))) (Some (snd (fst s) + snd s)))
    = Ok lab /\
    geo_poly_spec new_w new_h t_keypoints s lab.
Proof.
  intros Hw Hh Hne. destruct s as [[cls start] len].
  unfold geo_poly_label, geo_poly_spec, clamped_vertices in *. cbn [fst snd] in *.
  set (norm := map _ (py_slice _ _ _)) in *.
  assert (Hin : Forall (fun p => in01 (fst p) /\ in01 (snd p)) norm).
  { unfold norm. apply Forall_map, Forall_forall. intros p _. simpl.
    split; apply clamp01_in01. }
  destruct (Nat.leb_spec 3 (length norm)) as [Hge|Hlt].
  - eexists. split; [reflexivity |]. cbn [lab_class lab_bbox lab_poly].
    rewrite decide_True by done. auto.
  - rewrite polygon_to_bbox_norm_scaled by done.
    destruct (extent_bbox_nonempty norm Hne) as (b & Hb & Hcov).
    rewrite Hb. eexists. split; [reflexivity |].
    cbn [lab_class lab_bbox lab_poly].
    rewrite decide_False by lia. eauto 10.
Qed.

(** C6, as the code has it.  Every polygon with at least one vertex that
    goes through a geometric transform gives exactly one entry of the output
    label list, after the entries of the boxes and in the order of the
    polygons: a polygon label of the vertices normalized and clamped to
    [0, 1] when there are at least 3 of them, and otherwise a bbox label of
    the componentwise min/max extent of the clamped vertices. *)
Theorem geo_labels_one_entry_per_polygon new_w new_h t_bboxes t_bboxes_cls
  t_keypoints splits :
  (0 < new_w)%Qc -> (0 < new_h)%Qc ->
  Forall (fun s => clamped_vertices new_w new_h t_keypoints s <> []) splits ->
  exists derived,
    geo_labels new_w new_h t_bboxes t_bboxes_cls t_keypoints splits
    = Ok (bbox_labels new_w new_h t_bboxes t_bboxes_cls ++ derived) /\
    Forall2 (geo_poly_spec new_w new_h t_keypoints) splits derived.
Proof.
  intros Hw Hh Hne. unfold geo_labels.
  destruct splits as [|s0 splits0] eqn:Hsplits.
  { exists []. rewrite app_nil_r. split; [reflexivity | constructor]. }
  rewrite <- Hsplits in *. clear Hsplits s0 splits0.
  rewrite reconstruct_polygons_map, for_each_append.
  destruct (mapM_result_Forall2 (geo_poly_label new_w new_h)
              (fun poly lab => exists s,
                 poly = (fst (fst s),
                         py_slice t_keypoints (Some (snd (fst s)))
                                  (Some (snd (fst s) + snd s))) /\
                 geo_poly_spec new_w new_h t_keypoints s lab)
              (map (fun s => (fst (fst s),
                              py_slice t_keypoints (Some (snd (fst s)))
                                       (Some (snd (fst s) + snd s)))) splits))
    as (derived & Hmap & HF).
  { apply Forall_map. eapply Forall_impl; [exact Hne |]. intros s Hs. simpl.
    destruct (geo_poly_label_spec new_w new_h t_keypoints s Hw Hh Hs)
      as (lab & Hlab & Hspec).
    exists lab. split; [exact Hlab |]. exists s. auto. }
  exists derived. rewrite Hmap. simpl. split; [reflexivity |].
  apply Forall2_fmap_l in HF. eapply Forall2_impl; [exact HF |].
  intros s lab (s' & Heq & Hspec). simpl in *.
  clear -Heq Hspec. destruct s as [[c a] n], s' as [[c' a'] n']. simpl in *.
  injection Heq as -> Hslice.
  unfold geo_poly_spec, clamped_vertices in *. simpl in *.
  by rewrite Hslice.
Qed.

(** C6 at a one-vertex polygon that lies inside the picture. *)
Lemma geo_labels_one_entry_per_polygon_witness :
  exists derived,
    geo_labels (Qc_of_Z 10) (Qc_of_Z 10) [] [] [(Qc_of_Z 5, Qc_of_Z 3)] [(7, 0, 1)]
    = Ok (bbox_labels (Qc_of_Z 10) (Qc_of_Z 10) [] [] ++ derived) /\
    Forall2 (geo_poly_spec (Qc_of_Z 10) (Qc_of_Z 10) [(Qc_of_Z 5, Qc_of_Z 3)])
            [(7, 0, 1)] derived.
Proof.
  apply (geo_labels_one_entry_per_polygon (Qc_of_Z 10) (Qc_of_Z 10) [] []
           [(Qc_of_Z 5, Qc_of_Z 3)] [(7, 0, 1)]);
    [by vm_compute | by vm_compute | repeat constructor; by vm_compute].
Defined.

(** C6 as stated fails.  A one-vertex polygon whose transformed vertex
    (-5, 3) lies outside a 10 x 10 picture is re-emitted as the bbox of the
    clamped vertex (0, 0.3), which does not cover the transformed point
    (-0.5, 0.3); and a polygon without vertices makes the whole label
    computation raise. *)
Lemma geo_fallback_bbox_misses_transformed_point :
  geo_labels (Qc_of_Z 10) (Qc_of_Z 10) [] [] [(Qc_of_Z (-5), Qc_of_Z 3)] [(7, 0, 1)]
  = Ok [Label 7 (Some (Qc_of_Z 0, qc 3 10, Qc_of_Z 0, Qc_of_Z 0)) None] /\
  ¬ covers (Qc_of_Z 0, qc 3 10, Qc_of_Z 0, Qc_of_Z 0) (qc (-5) 10, qc 3 10) /\
  geo_labels (Qc_of_Z 10) (Qc_of_Z 10) [] [] [] [(7, 0, 0)] = Raise ValueError.
Proof.
  split; [| split].
  - apply (bool_decide_unpack _). by vm_compute.
  - intros (H1 & _). by vm_compute in H1.
  - reflexivity.
Qed.

(** ** GeometryEngine: what [collect_geometry] records *)

Lemma collect_geometry_fold orig_w orig_h labels g0 :
  let g := fold_left (collect_label orig_w orig_h) labels g0 in
  bboxes_pascal g =
    bboxes_pascal g0 ++ map (fun i => to_pascal orig_w orig_h (snd i)) (bbox_inputs labels) /\
  bboxes_cls g = bboxes_cls g0 ++ map fst (bbox_inputs labels) /\
  keypoints g =
    keypoints g0 ++ concat (map (fun i => to_pixels orig_w orig_h (snd i)) (poly_inputs labels)) /\
  poly_splits g =
    poly_splits g0 ++ split_offsets (Z.of_nat (length (keypoints g0))) (poly_inputs labels).
Proof.
  revert g0. induction labels as [|lab labels IH]; intros g0; simpl.
  - by rewrite !app_nil_r.
  - destruct (IH (collect_label orig_w orig_h g0 lab)) as (E1 & E2 & E3 & E4).
    rewrite E1, E2, E3, E4. clear IH E1 E2 E3 E4.
    unfold bbox_inputs, poly_inputs, collect_label, bbox_of, poly_of. simpl.
    destruct lab as [cls [[[[cx cy] bw] bh]|] [poly|]]; simpl;
      rewrite <- ?app_assoc; try done.
    rewrite length_app, length_map, Nat2Z.inj_add. done.
Qed.

Lemma collect_geometry_spec orig_w orig_h labels :
  let g := collect_geometry orig_w orig_h labels in
  bboxes_pascal g = map (fun i => to_pascal orig_w orig_h (snd i)) (bbox_inputs labels) /\
  bboxes_cls g = map fst (bbox_inputs labels) /\
  keypoints g = concat (map (fun i => to_pixels orig_w orig_h (snd i)) (poly_inputs labels)) /\
  poly_splits g = split_offsets 0 (poly_inputs labels).
Proof. apply (collect_geometry_fold orig_w orig_h labels no_geometry). Qed.


(** The slice a split records is the pixel polygon it was recorded for. *)
Lemma split_offsets_slices orig_w orig_h polys (before : list (Qc * Qc)) :
  Forall2
    (fun s input =>
       fst (fst s) = fst input /\
       py_slice (before ++ concat (map (fun i => to_pixels orig_w orig_h (snd i)) polys))
                (Some (snd (fst s))) (Some (snd (fst s) + snd s))
       = to_pixels orig_w orig_h (snd input))
    (split_offsets (Z.of_nat (length before)) polys) polys.
Proof.
  revert before. induction polys as [|[cls poly] polys IH]; intros before; simpl.
  - constructor.
  - constructor.
    + simpl. split; [done |].
      rewrite py_slice_middle by lia. rewrite !Nat2Z.id.
      rewrite drop_app_length.
      replace (length poly) with (length (to_pixels orig_w orig_h poly))
        by apply length_map.
      by rewrite take_app_length.
    + specialize (IH (before ++ to_pixels orig_w orig_h poly)).
      rewrite length_app, Nat2Z.inj_add in IH.
      replace (length (to_pixels orig_w orig_h poly)) with (length poly) in IH
        by (symmetry; apply length_map).
      rewrite <- app_assoc in IH. exact IH.
Qed.

(** ** GeometryEngine: labels under a photometric transform *)

(** Denormalizing a box to pixel corners and normalizing it back against the
    same width and height gives the box back. *)
Lemma bbox_label_roundtrip w h cls b :
  w <> 0%Qc -> h <> 0%Qc ->
  bbox_label w h (to_pascal w h b, cls) = Label cls (Some b) None.
Proof.
  intros Hw Hh. destruct b as [[[cx cy] bw] bh]. unfold bbox_label, to_pascal.
  assert (E1 : (((cx - bw / 2) * w + (cx + bw / 2) * w) / 2 / w = cx)%Qc)
    by (field; done).
  assert (E2 : (((cy - bh / 2) * h + (cy + bh / 2) * h) / 2 / h = cy)%Qc)
    by (field; done).
  assert (E3 : (((cx + bw / 2) * w - (cx - bw / 2) * w) / w = bw)%Qc)
    by (field; done).
  assert (E4 : (((cy + bh / 2) * h - (cy - bh / 2) * h) / h = bh)%Qc)
    by (field; done).
  by rewrite E1, E2, E3, E4.
Qed.

(** Likewise for the vertices of a polygon. *)
Lemma to_pixels_roundtrip w h poly :
  w <> 0%Qc -> h <> 0%Qc ->
  map (fun p => (fst p / w, snd p / h)%Qc) (to_pixels w h poly) = poly.
Proof.
  intros Hw Hh. unfold to_pixels. rewrite map_map.
  rewrite <- (map_id poly) at 2. apply map_ext. intros [x y]. simpl.
  f_equal; field; done.
Qed.

Lemma photo_poly_label_expected w h kps s input :
  (0 < w)%Qc -> (0 < h)%Qc ->
  fst (fst s) = fst input ->
  py_slice kps (Some (snd (fst s))) (Some (snd (fst s) + snd s))
  = to_pixels w h (snd input) ->
  photo_poly_label w h kps s = photo_poly_expected input.
Proof.
  intros Hw Hh Hcls Hslice.
  destruct s as [[cls start] len], input as [cls' poly]. simpl in *. subst cls'.
  unfold photo_poly_label, photo_poly_expected. rewrite Hslice.
  rewrite to_pixels_roundtrip by by apply Qc_pos_neq_0.
  unfold to_pixels at 1. rewrite polygon_to_bbox_norm_scaled by done.
  reflexivity.
Qed.

(** The labels of a photometric output, from the labels of the source. *)
Lemma photo_labels_spec w h labels :
  (0 < w)%Qc -> (0 < h)%Qc ->
  photo_labels w h (collect_geometry w h labels) =
  (derived ← mapM photo_poly_expected (poly_inputs labels);
   Ok (map (fun i => Label (fst i) (Some (snd i)) None) (bbox_inputs labels)
       ++ derived)).
Proof.
  intros Hw Hh. unfold photo_labels.
  rewrite for_each_append, bbox_labels_map.
  destruct (collect_geometry_spec w h labels) as (E1 & E2 & E3 & E4).
  rewrite E1, E2, E3, E4. clear E1 E2 E3 E4.
  rewrite zip_map_map, map_map.
  rewrite (mapM_result_ext (photo_poly_label w h _) photo_poly_expected
             _ (poly_inputs labels)).
  - destruct (mapM photo_poly_expected (poly_inputs labels)); simpl; [| done].
    do 2 f_equal. apply map_ext. intros [cls b]. simpl.
    apply bbox_label_roundtrip; by apply Qc_pos_neq_0.
  - pose proof (split_offsets_slices w h (poly_inputs labels) []) as HF.
    simpl in HF. eapply Forall2_impl; [exact HF |].
    intros s input [Hc Hs]. by apply photo_poly_label_expected.
Qed.

Lemma image_w_pos im : (0 < image_w im)%Qc.
Proof. unfold image_w. rewrite <- Z2Qc_inj_0. apply (proj1 (Z2Qc_inj_lt _ _)). lia. Qed.

Lemma image_h_pos im : (0 < image_h im)%Qc.
Proof. unfold image_h. rewrite <- Z2Qc_inj_0. apply (proj1 (Z2Qc_inj_lt _ _)). lia. Qed.

Section Photometric.
Context {PF : Platform} {AU : Augmenter}.

(** What the documentation of the libraries promises: [cv2.resize] returns
    an image of the requested size, and the photometric transforms of
    albumentations return an image of the size of their input. *)
Hypothesis cv2_resize_size : forall img w h r,
  cv2_resize img w h = Ok r -> Zpos (img_width r) = w /\ Zpos (img_height r) = h.
Hypothesis compose_pixel_size : forall aug img r,
  compose_pixel aug img = Ok r ->
  img_width r = img_width img /\ img_height r = img_height img.

Lemma low_res_size img r :
  low_res img = Ok r ->
  img_width r = img_width img /\ img_height r = img_height img.
Proof.
  unfold low_res. intros Hr.
  destruct (cv2_resize img _ _) as [small|e] eqn:Hsmall; simpl in Hr; [| done].
  apply cv2_resize_size in Hr as [Hw Hh]. split; congruence.
Qed.

Lemma compose_photo_size aug img r :
  compose_photo aug img = Ok r ->
  img_width r = img_width img /\ img_height r = img_height img.
Proof.
  destruct aug; simpl; try apply compose_pixel_size. apply low_res_size.
Qed.

(** C5, as the code has it.  The image a photometric entry returns has the
    width and height of its input, and the labels re-emitted for it are,
    boxes first: every bbox of the source unchanged (its pixel corners
    normalized back against the same dimensions), every polygon of at least
    3 vertices unchanged, and for a polygon of 1 or 2 vertices the bbox of
    its extent.  In exact arithmetic the values are equal, not only equal at
    6 decimals. *)
Theorem photometric_labels_unchanged aug img aug_img labels :
  compose_photo aug img = Ok aug_img ->
  (img_width aug_img = img_width img /\ img_height aug_img = img_height img) /\
  photo_labels (image_w aug_img) (image_h aug_img)
               (collect_geometry (image_w img) (image_h img) labels) =
  (derived ← mapM photo_poly_expected (poly_inputs labels);
   Ok (map (fun i => Label (fst i) (Some (snd i)) None) (bbox_inputs labels)
       ++ derived)).
Proof.
  intros Haug. apply compose_photo_size in Haug as [Hw Hh].
  split; [done |]. unfold image_w, image_h. rewrite Hw, Hh.
  apply photo_labels_spec; [apply image_w_pos | apply image_h_pos].
Qed.

End Photometric.

(** C5 on the demo platform: the low-resolution entry applied to a 6 x 4
    image with one bbox and one triangle. *)
Lemma photometric_labels_unchanged_witness :
  let img := Image 4 6 [] in
  let labels :=
    [ Label 1 (Some (qc 1 2, qc 1 2, qc 1 4, qc 1 4)) None;
      Label 0 None (Some [(qc 1 10, qc 1 5); (qc 1 2, qc 1 5); (qc 1 2, qc 4 5)]) ] in
  exists aug_img,
    compose_photo (AU := Demo.augmenter) LambdaLowRes img = Ok aug_img /\
    (img_width aug_img = img_width img /\ img_height aug_img = img_height img) /\
    photo_labels (image_w aug_img) (image_h aug_img)
                 (collect_geometry (image_w img) (image_h img) labels) =
    (derived ← mapM photo_poly_expected (poly_inputs labels);
     Ok (map (fun i => Label (fst i) (Some (snd i)) None) (bbox_inputs labels)
         ++ derived)).
Proof.
  intros img labels. eexists. split; [reflexivity |].
  refine (photometric_labels_unchanged (AU := Demo.augmenter) _ _
            LambdaLowRes img _ labels _).
  - intros i w h r. simpl. destruct w, h; intros [= <-]; done.
  - intros a i r. simpl. intros [= <-]. done.
  - reflexivity.
Defined.

(** C5 as stated fails for a polygon of fewer than 3 vertices: the label of
    the line [0 0.5 0.5], a polygon of one vertex, is re-emitted by the
    photometric path as the bbox label [0 0.5 0.5 0 0]. *)
Lemma photometric_short_polygon_becomes_bbox :
  let labels := [Label 0 None (Some [(qc 1 2, qc 1 2)])] in
  parse_yolo_label Demo.parse_int Demo.parse_float "0 0.5 0.5"
  = Ok (Label 0 None (Some [(qc 1 2, qc 1 2)])) /\
  photo_labels (Qc_of_Z 2) (Qc_of_Z 2)
               (collect_geometry (Qc_of_Z 2) (Qc_of_Z 2) labels)
  = Ok [Label 0 (Some (qc 1 2, qc 1 2, Qc_of_Z 0, Qc_of_Z 0)) None] /\
  photo_labels (Qc_of_Z 2) (Qc_of_Z 2)
               (collect_geometry (Qc_of_Z 2) (Qc_of_Z 2) labels)
  <> Ok labels.
Proof.
  intros labels. split; [| split].
  - apply (bool_decide_unpack _). by vm_compute.
  - apply (bool_decide_unpack _). by vm_compute.
  - apply (bool_decide_unpack _). by vm_compute.
Qed.

(** ** GeometryEngine: the order of the output labels *)







(** ** FormatConverter: failures *)

Lemma keeps_logs_ret {A} (a : A) : keeps_logs (mret a).
Proof. intros w r w' [= <- <-]. done. Qed.

Lemma keeps_logs_lift {A} (r : result A) : keeps_logs (lift r).
Proof. intros w r' w' [= <- <-]. done. Qed.

Lemma keeps_logs_bind {A B} (m : io A) (f : A -> io B) :
  keeps_logs m -> (forall a, keeps_logs (f a)) -> keeps_logs (m ≫= f).
Proof.
  intros Hm Hf w r w'. unfold mbind, io_bind.
  destruct (m w) as [[a|e] w1] eqn:Hmw.
  - intros Hfw. apply Hf in Hfw. apply Hm in Hmw. congruence.
  - intros [= <- <-]. by apply Hm in Hmw.
Qed.

Lemma keeps_logs_write_file path f : keeps_logs (write_file path f).
Proof. intros w r w' [= <- <-]. done. Qed.

Lemma keeps_logs_exists_file path : keeps_logs (exists_file path).
Proof. intros w r w' [= <- <-]. done. Qed.

Lemma keeps_logs_copy_file src dst : keeps_logs (copy_file src dst).
Proof.
  intros w r w'. unfold copy_file. destruct (files w !! src); intros [= <- <-]; done.
Qed.

Lemma keeps_logs_append_line path line : keeps_logs (append_line path line).
Proof.
  intros w r w'. unfold append_line.
  destruct (files w !! path) as [[]|]; intros [= <- <-]; done.
Qed.

Lemma keeps_logs_io_for {A} (xs : list A) (body : A -> io unit) :
  (forall x, keeps_logs (body x)) -> keeps_logs (io_for xs body).
Proof.
  intros Hbody. induction xs as [|x xs IH]; simpl.
  - apply keeps_logs_ret.
  - apply keeps_logs_bind; [apply Hbody | intros _; exact IH].
Qed.

Section ConverterFailures.
Context {PF : Platform}.

Lemma keeps_logs_image_size path : keeps_logs (image_size path).
Proof.
  intros w r w'. unfold image_size.
  destruct (files w !! path) as [[]|]; intros [= <- <-]; done.
Qed.

Lemma keeps_logs_load_json path : keeps_logs (load_json path).
Proof.
  intros w r w'. unfold load_json.
  destruct (files w !! path) as [[]|]; intros [= <- <-]; done.
Qed.

Lemma keeps_logs_convert_image coco_json output_dir images mapping train_ids
  val_ids item :
  keeps_logs (convert_image coco_json output_dir images mapping train_ids val_ids item).
Proof.
  destruct item as [img anns]. unfold convert_image.
  apply keeps_logs_bind; [apply keeps_logs_lift | intros info].
  apply keeps_logs_bind.
  { destruct (img_info_width info), (img_info_height info);
      first [apply keeps_logs_ret | apply keeps_logs_image_size]. }
  intros [width height].
  apply keeps_logs_bind; [apply keeps_logs_exists_file | intros present].
  apply keeps_logs_bind.
  { destruct present; [apply keeps_logs_copy_file | apply keeps_logs_ret]. }
  intros _. apply keeps_logs_bind; [apply keeps_logs_write_file | intros _].
  apply keeps_logs_io_for. intros ann.
  apply keeps_logs_bind; [apply keeps_logs_lift | intros line].
  apply keeps_logs_append_line.
Qed.

(** The [try] block itself writes nothing to the log. *)
Lemma keeps_logs_convert_body coco_json output_dir train_ratio val_ratio :
  keeps_logs (convert_body coco_json output_dir train_ratio val_ratio).
Proof.
  unfold convert_body.
  apply keeps_logs_bind; [apply keeps_logs_load_json | intros coco].
  apply keeps_logs_bind; [apply keeps_logs_lift | intros imgs].
  apply keeps_logs_bind; [apply keeps_logs_lift | intros annotations].
  apply keeps_logs_bind; [apply keeps_logs_lift | intros cats].
  destruct (split_sets _ _ _) as [[train_ids val_ids] test_ids].
  apply keeps_logs_bind.
  { apply keeps_logs_io_for. intros item. apply keeps_logs_convert_image. }
  intros _. apply keeps_logs_bind; [apply keeps_logs_lift | intros names].
  apply keeps_logs_bind; [apply keeps_logs_write_file | intros _].
  apply keeps_logs_bind; [apply keeps_logs_write_file | intros _].
  apply keeps_logs_ret.
Qed.

(** Each of the unexpected conditions makes the [try] block raise. *)
Lemma unexpected_condition_raises coco_json output_dir train_ratio val_ratio w :
  unexpected_condition coco_json output_dir train_ratio val_ratio w ->
  exists exc w',
    convert_body coco_json output_dir train_ratio val_ratio w = (Raise exc, w').
Proof.
  intros [Hmiss | f Hf Hnot | doc Hdoc Hkey | exc w' Hraise];
    unfold convert_body, mbind, io_bind, load_json.
  - rewrite Hmiss. eauto.
  - rewrite Hf. destruct f; eauto. by destruct (Hnot doc).
  - rewrite Hdoc. unfold lift.
    destruct (coco_images doc); simpl; [| eauto].
    destruct (coco_annotations doc); simpl; [| eauto].
    destruct (coco_categories doc); simpl; [| eauto].
    by destruct Hkey as [?|[?|?]].
  - eauto.
Qed.

(** C8.  Whenever an unexpected condition occurs (missing document, a
    document that is not JSON or lacks a top-level key, or any exception
    inside the [try] block, IO errors included) the converter returns, rather
    than raises, the single failure result: success flag false, zero counts
    for the three splits, an empty class-name list, and exactly one
    diagnostic message added to the log. *)
Theorem conversion_failure_is_reported coco_json output_dir train_ratio val_ratio w :
  unexpected_condition coco_json output_dir train_ratio val_ratio w ->
  exists exc w',
    convert_body coco_json output_dir train_ratio val_ratio w = (Raise exc, w') /\
    coco_to_yolo_noninteractive coco_json output_dir train_ratio val_ratio w =
      ((false, 0, 0, 0, []),
       World (files w')
             (logs w ++ ["COCO -> YOLO conversion failed: " +:+ exn_name exc])).
Proof.
  intros Hcond.
  destruct (unexpected_condition_raises _ _ _ _ _ Hcond) as (exc & w' & Hbody).
  exists exc, w'. split; [exact Hbody |].
  unfold coco_to_yolo_noninteractive. rewrite Hbody.
  by rewrite (keeps_logs_convert_body _ _ _ _ _ _ _ Hbody).
Qed.

End ConverterFailures.

(** C8 for a document path that does not exist. *)
Lemma conversion_failure_is_reported_witness :
  let w := World ∅ [] in
  exists exc w',
    convert_body (PF := Demo.platform) "in/coco.json" "out" (qc 7 10) (qc 2 10) w
    = (Raise exc, w') /\
    coco_to_yolo_noninteractive (PF := Demo.platform)
      "in/coco.json" "out" (qc 7 10) (qc 2 10) w =
      ((false, 0, 0, 0, []),
       World (files w')
             (logs w ++ ["COCO -> YOLO conversion failed: " +:+ exn_name exc])).
Proof.
  intros w.
  apply (conversion_failure_is_reported (PF := Demo.platform)
           "in/coco.json" "out" (qc 7 10) (qc 2 10) w).
  apply document_missing. reflexivity.
Defined.

(** ** FormatConverter: an image whose file is absent *)

Section MissingImage.
Context {PF : Platform}.



End MissingImage.


(** A whole conversion of a document whose only image is absent from the
    tree: the run succeeds, the label file is there and the image is not. *)
Lemma conversion_succeeds_without_image_file :
  let doc :=
    CocoDoc (Some [ImageInfo 1 "a.jpg" (Some (JInt 100)) (Some (JInt 50))])
            (Some [Annotation 1 5 None (Some [JInt 10; JInt 10; JInt 20; JInt 20])])
            (Some [Category 5 "cat"]) in
  let w := World {["in/coco.json" := FJson doc]} [] in
  let out :=
    coco_to_yolo_noninteractive (PF := Demo.platform)
      "in/coco.json" "out" (qc 7 10) (qc 2 10) w in
  fst out = (true, 0, 0, 1, ["cat"]) /\
  files (snd out) !! "out/test/labels/a.txt"
  = Some (FText ["0 0.200000 0.400000 0.200000 0.400000"]) /\
  files (snd out) !! "out/test/images/a.jpg" = None.
Proof. vm_compute. repeat split. Qed.

(** ** AugmentationOrchestrator *)

Section OrchestratorFacts.
Context {PF : Platform} {AU : Augmenter}.




End OrchestratorFacts.



Section OrchestratorRun.
Context {PF : Platform} {AU : Augmenter}.




End OrchestratorRun.



(** The catalog has the name [rot180] twice, once among the first nine
    geometric entries and once among the fine rotations: the second write
    replaces the files of the first, and an image with one bbox ends up with
    54 derived images and 54 derived label files for 55 entries applied. *)
Lemma catalog_repeats_rot180 :
  ¬ NoDup (map fst geo_augs) /\
  let w :=
    World {[ "in/images/a.jpg" := FImage (Image 4 6 []);
             "in/labels/a.txt" := FText ["1 0.5 0.5 0.25 0.25"] ]} [] in
  let out :=
    augment_image (PF := Demo.platform) (AU := Demo.augmenter)
      "in/labels" "out/images" "out/labels" "in/images/a.jpg" 0 w in
  fst out = Ok 55 /\
  size (files (snd out)) = (2 + 2 + 54 + 54)%nat.
Proof.
  split; [| vm_compute; done].
  intros Hnd. apply (NoDup_lookup _ 3%nat 23%nat "rot180") in Hnd; done.
Qed.

(** * Further properties of the code *)

(** ** LabelCodec: writing a label and reading it back *)

Lemma string_app_cons c (a b : string) : String c a +:+ b = String c (a +:+ b).
Proof. reflexivity. Qed.

Lemma string_app_nil_l (b : string) : "" +:+ b = b.
Proof. reflexivity. Qed.

Lemma string_app_assoc (a b c : string) : (a +:+ b) +:+ c = a +:+ (b +:+ c).
Proof.
  induction a as [|x a IH]; [done |]. by rewrite !string_app_cons, IH.
Qed.

Lemma string_app_nil_r (a : string) : a +:+ "" = a.
Proof. induction a as [|x a IH]; [done |]. by rewrite string_app_cons, IH. Qed.

(** [split] of two strings joined by a space is the tokens of the first
    followed by the tokens of the second. *)
Lemma split_aux_app_space cur a b :
  split_aux cur (a +:+ String " " b) = split_aux cur a ++ split b.
Proof.
  revert cur. induction a as [|c a IH]; intros cur.
  - rewrite string_app_nil_l. simpl. by destruct cur.
  - rewrite string_app_cons. simpl.
    destruct (is_space c); [destruct cur |]; simpl; by rewrite IH.
Qed.

Lemma split_app_space a b : split (a +:+ " " +:+ b) = split a ++ split b.
Proof. apply split_aux_app_space. Qed.

Lemma split_aux_no_space cur w t :
  no_space t = true -> split_aux (Some cur) (t +:+ w) = split_aux (Some (cur +:+ t)) w.
Proof.
  revert cur. induction t as [|c t IH]; intros cur.
  - intros _. by rewrite string_app_nil_l, string_app_nil_r.
  - intros Hct. simpl in Hct. apply andb_prop in Hct as [Hc Ht].
    apply negb_true_iff in Hc.
    rewrite string_app_cons. simpl. rewrite Hc.
    rewrite IH by done. by rewrite string_app_assoc.
Qed.

Lemma split_word t : is_word t = true -> split t = [t].
Proof.
  destruct t as [|c t]; [done |]. simpl. intros [Hc Ht]%andb_prop.
  apply negb_true_iff in Hc. unfold split. simpl. rewrite Hc.
  rewrite <- (string_app_nil_r t) at 1. rewrite split_aux_no_space by done.
  reflexivity.
Qed.

Lemma join_space_fold ws acc :
  fold_left (fun a x => a +:+ " " +:+ x) ws acc =
  acc +:+ fold_right (fun x r => " " +:+ x +:+ r) "" ws.
Proof.
  revert acc. induction ws as [|w ws IH]; intros acc; simpl.
  - by rewrite string_app_nil_r.
  - rewrite IH. by rewrite !string_app_assoc.
Qed.

Lemma split_join_space ws : split (join_space ws) = concat (map split ws).
Proof.
  destruct ws as [|w ws]; [done |]. unfold join_space. rewrite join_space_fold.
  simpl. revert w. induction ws as [|x ws IH]; intros w; simpl.
  - by rewrite string_app_nil_r, app_nil_r.
  - rewrite split_app_space. f_equal. apply IH.
Qed.

Section WriteRead.
Context {num : Type}.
Variable int_of_string : string -> option Z.
Variable float_of_string : string -> option num.
Variable fmt6 : num -> string.
Variable r : num -> num.

Lemma mapM_formatted (xs : list num) :
  Forall (fun x => is_word (fmt6 x) = true /\ float_of_string (fmt6 x) = Some (r x)) xs ->
  concat (map (fun x => split (fmt6 x)) xs) = map fmt6 xs /\
  mapM float_of_string (map fmt6 xs) = Some (map r xs).
Proof.
  induction 1 as [|x xs [Hw Hf] _ [IH1 IH2]]; simpl; [done |].
  rewrite (split_word _ Hw), IH1, Hf. simpl. by rewrite IH2.
Qed.

Lemma split_point_strings (poly : list (num * num)) :
  concat (map split (map (fun p => fmt6 (fst p) +:+ " " +:+ fmt6 (snd p)) poly)) =
  concat (map (fun x => split (fmt6 x)) (flat_points poly)).
Proof.
  induction poly as [|p poly IH]; simpl; [done |].
  rewrite split_app_space, IH. unfold flat_points. simpl.
  by rewrite <- app_assoc.
Qed.

Lemma flat_points_map {A B} (f : A -> B) (ps : list (A * A)) :
  map f (flat_points ps) = flat_points (map (fun p => (f (fst p), f (snd p))) ps).
Proof.
  induction ps as [|[x y] ps IH]; [done |].
  unfold flat_points in *. simpl. by rewrite IH.
Qed.

Lemma pair_up_flat_points {A} (ps : list (A * A)) :
  pair_up (flat_points ps) = Some ps.
Proof.
  induction ps as [|[x y] ps IH]; simpl; [done |].
  unfold flat_points in *. simpl. by rewrite IH.
Qed.

(** The line written for a label is parsed as [reread r] of the label. *)
Lemma label_line_reads_back (lab : label num) (line : string) :
  is_word (fmt_int (lab_class lab)) = true ->
  int_of_string (fmt_int (lab_class lab)) = Some (lab_class lab) ->
  Forall (fun x => is_word (fmt6 x) = true /\ float_of_string (fmt6 x) = Some (r x))
         (label_numbers lab) ->
  label_line fmt6 lab = Some line ->
  parse_yolo_label int_of_string float_of_string line = Ok (reread r lab).
Proof.
  intros Hcw Hci Hnums Hline.
  destruct (mapM_formatted _ Hnums) as [Hsplit Hfloats].
  assert (Htokens : split line = fmt_int (lab_class lab) :: map fmt6 (label_numbers lab)).
  { destruct lab as [cls [[[[cx cy] w] h]|] [poly|]];
      unfold label_line, label_numbers in *;
      cbn [lab_bbox lab_poly lab_class] in *;
      try discriminate; injection Hline as <-.
    - rewrite !split_app_space, (split_word _ Hcw).
      cbn [map concat] in Hsplit. rewrite app_nil_r in Hsplit.
      rewrite <- !app_assoc. cbn [app]. f_equal. exact Hsplit.
    - rewrite !split_app_space, (split_word _ Hcw).
      cbn [map concat] in Hsplit. rewrite app_nil_r in Hsplit.
      rewrite <- !app_assoc. cbn [app]. f_equal. exact Hsplit.
    - rewrite split_app_space, split_join_space, (split_word _ Hcw).
      rewrite split_point_strings. cbn [app]. f_equal. exact Hsplit. }
  unfold parse_yolo_label. rewrite Htokens, Hci. simpl. rewrite Hfloats. simpl.
  destruct lab as [cls [[[[cx cy] w] h]|] [poly|]];
    unfold label_line, label_numbers, reread in *;
    cbn [lab_bbox lab_poly lab_class] in *; try discriminate; try reflexivity.
  rewrite flat_points_map.
  destruct poly as [|p [|q [|p3 poly]]]; try reflexivity.
  cbn [map]. unfold flat_points at 1. cbn [map concat app].
  unfold flat_points at 1. cbn [map concat app pair_up].
  change (concat (map (fun p0 => [fst p0; snd p0]) ?l)) with (flat_points l).
  by rewrite pair_up_flat_points.
Qed.

End WriteRead.

Section WrittenFiles.
Context {PF : Platform}.
Variable r : Qc -> Qc.

Lemma read_written_lines (labels acc : list (label Qc)) :
  Forall (readable r) labels ->
  for_each
    (fun labels line =>
       match split line with
       | [] => Ok labels
       | _ =>
           lab ← parse_yolo_label int_of_string float_of_string line;
           Ok (labels ++ [lab])
       end)
    (save_yolo_label fmt6 labels) acc
  = Ok (acc ++ map (reread r) (List.filter has_shape labels)).
Proof.
  intros Hall. revert acc.
  induction Hall as [|lab labels (Hcw & Hci & Hnums) _ IH]; intros acc.
  - simpl. by rewrite app_nil_r.
  - unfold save_yolo_label. cbn [omap list_omap List.filter].
    fold (save_yolo_label fmt6 labels).
    destruct (label_line fmt6 lab) as [line|] eqn:Hline.
    + pose proof (label_line_reads_back int_of_string float_of_string fmt6 r
                    lab line Hcw Hci Hnums Hline) as Hparse.
      assert (Hshape : has_shape lab = true).
      { unfold has_shape, label_line in *.
        by destruct (lab_bbox lab) as [[[[??]?]?]|], (lab_poly lab). }
      rewrite Hshape. cbn [for_each map].
      destruct (split line) as [|tok toks] eqn:Hsplit.
      { unfold parse_yolo_label in Hparse. by rewrite Hsplit in Hparse. }
      rewrite Hparse. simpl. rewrite IH, <- app_assoc. reflexivity.
    + assert (Hshape : has_shape lab = false).
      { unfold has_shape, label_line in *.
        by destruct (lab_bbox lab) as [[[[??]?]?]|], (lab_poly lab). }
      rewrite Hshape. apply IH.
Qed.

(** X1.  A label file written by [save_yolo_label] is read back by the
    reader of the augmentation loop as the labels that have a bbox or a
    polygon, in their order, each with its class and with every number as
    the float parser reads its 6-decimal rendering: a bbox comes back as a
    bbox and a polygon as a polygon with the same vertices, except that a
    polygon of exactly two vertices comes back as a bbox. *)
Theorem written_labels_read_back (path : string) (labels : list (label Qc)) w :
  Forall (readable r) labels ->
  let w' := snd (write_file path (FText (save_yolo_label fmt6 labels)) w) in
  read_labels path w' = (Ok (map (reread r) (List.filter has_shape labels)), w').
Proof.
  intros Hall w'. unfold read_labels. subst w'. cbn [write_file snd files].
  rewrite lookup_insert_eq. by rewrite (read_written_lines labels [] Hall).
Qed.

End WrittenFiles.

(** X1 on the demo platform: a polygon of two vertices is written as
    [3 0.500000 0.250000 0.125000 0.500000] and read back as a bbox, and a
    label without bbox and polygon leaves no line. *)
Lemma written_labels_read_back_witness :
  let labels := [Label 3 None (Some [(qc 1 2, qc 1 4); (qc 1 8, qc 1 2)]);
                 Label 1 None None;
                 Label 0 None (Some [(qc 1 2, qc 1 4); (qc 1 8, qc 1 2); (qc 1 4, 1%Qc)])] in
  let w' := snd (write_file "out/a.txt"
                   (FText (save_yolo_label Demo.format6 labels)) (World ∅ [])) in
  files w' !! "out/a.txt"
  = Some (FText ["3 0.500000 0.250000 0.125000 0.500000";
                 "0 0.500000 0.250000 0.125000 0.500000 0.250000 1.000000"]) /\
  read_labels (PF := Demo.platform) "out/a.txt" w'
  = (Ok [Label 3 (Some (qc 1 2, qc 1 4, qc 1 8, qc 1 2)) None;
         Label 0 None (Some [(qc 1 2, qc 1 4); (qc 1 8, qc 1 2); (qc 1 4, 1%Qc)])], w').
Proof.
  intros labels w'. split; [reflexivity |].
  apply (written_labels_read_back (PF := Demo.platform) (fun x => x)
           "out/a.txt" labels (World ∅ [])).
  repeat constructor; apply (bool_decide_unpack _); by vm_compute.
Defined.

(** ** FormatConverter: the lines it writes *)

Section ConverterLines.
Context {PF : Platform}.

Lemma np_div_str_nonzero x d : d <> 0%Qc -> np_div_str x d = fmt6 (x / d)%Qc.
Proof. intros Hd. unfold np_div_str. by rewrite decide_False. Qed.

(** X2.  With a non-zero width and height, the line the converter writes
    for an annotation is the line [save_yolo_label] writes for a label of the
    class index of the annotation's category: a polygon label of the first
    segmentation ring, each vertex divided by width and height, when the
    annotation has a non-empty segmentation list, and otherwise the bbox
    label [(x + w/2) / width, (y + h/2) / height, w / width, h / height]. *)
Theorem converter_line_is_label_line mapping ann width height line :
  width <> 0%Qc -> height <> 0%Qc ->
  annotation_line mapping ann width height = Ok line ->
  exists lab,
    label_line fmt6 lab = Some line /\
    dict_get (ann_category_id ann) mapping = Some (lab_class lab) /\
    ((exists ring rest pts,
        ann_segmentation ann = Some (SegList (ring :: rest)) /\
        pair_up ring = Some pts /\
        lab_bbox lab = None /\
        lab_poly lab =
          Some (map (fun p => (jnum_val (fst p) / width, jnum_val (snd p) / height)%Qc)
                    pts)) \/
     (exists x y w h,
        (forall ring rest, ann_segmentation ann <> Some (SegList (ring :: rest))) /\
        ann_bbox ann = Some [x; y; w; h] /\
        lab_bbox lab =
          Some ((jnum_val x + jnum_val w / 2) / width,
                (jnum_val y + jnum_val h / 2) / height,
                jnum_val w / width, jnum_val h / height)%Qc /\
        lab_poly lab = None)).
Proof.
  intros Hw Hh. unfold annotation_line.
  destruct (dict_get (ann_category_id ann) mapping) as [class_id|] eqn:Hcls;
    simpl; [| done].
  assert (Hbbox : forall l,
    (forall ring rest, ann_segmentation ann <> Some (SegList (ring :: rest))) ->
    bbox_line class_id (ann_bbox ann) width height = Ok l ->
    exists lab, label_line fmt6 lab = Some l /\ Some class_id = Some (lab_class lab) /\
      (exists x y w h,
        (forall ring rest, ann_segmentation ann <> Some (SegList (ring :: rest))) /\
        ann_bbox ann = Some [x; y; w; h] /\
        lab_bbox lab =
          Some ((jnum_val x + jnum_val w / 2) / width,
                (jnum_val y + jnum_val h / 2) / height,
                jnum_val w / width, jnum_val h / height)%Qc /\
        lab_poly lab = None)).
  { intros l Hseg. unfold bbox_line.
    destruct (ann_bbox ann) as [[|x [|y [|w [|h [|? ?]]]]]|]; simpl; try done.
    unfold py_div. rewrite !decide_False by done. simpl. intros [= <-].
    exists (Label class_id
              (Some ((jnum_val x + jnum_val w / 2) / width,
                     (jnum_val y + jnum_val h / 2) / height,
                     jnum_val w / width, jnum_val h / height)%Qc) None).
    split; [reflexivity |].
    split; [reflexivity |]. exists x, y, w, h. eauto. }
  destruct (ann_segmentation ann) as [[[|ring rest]|]|] eqn:Hseg;
    try (intros Hl; destruct (Hbbox line) as (lab & ? & ? & ?); [done | done |];
         exists lab; eauto).
  unfold polygon_line.
  destruct (pair_up ring) as [pts|] eqn:Hpts; simpl; [| done].
  destruct (_ && _); [done |]. intros [= <-].
  exists (Label class_id None
            (Some (map (fun p => (jnum_val (fst p) / width,
                                  jnum_val (snd p) / height)%Qc) pts))).
  split.
  - unfold label_line. cbn [lab_bbox lab_poly lab_class]. do 4 f_equal.
    rewrite map_map. apply map_ext. intros [a b]. simpl.
    by rewrite !np_div_str_nonzero.
  - split; [reflexivity |]. left. exists ring, rest, pts. eauto.
Qed.

End ConverterLines.

(** X2 on the demo platform: a segmentation ring of two points in a
    100 x 50 image. *)
Lemma converter_line_is_label_line_witness :
  let ann := Annotation 1 5 (Some (SegList [[JFloat (qc 10 1); JInt 10; JInt 20; JInt 20]]))
                        None in
  exists line lab,
    annotation_line (PF := Demo.platform) [(5, 0)] ann (Qc_of_Z 100) (Qc_of_Z 50)
    = Ok line /\
    line = "0 0.100000 0.200000 0.200000 0.400000" /\
    label_line Demo.format6 lab = Some line /\
    lab_bbox lab = None.
Proof.
  intros ann. eexists. 
  destruct (converter_line_is_label_line (PF := Demo.platform) [(5, 0)] ann
              (Qc_of_Z 100) (Qc_of_Z 50) "0 0.100000 0.200000 0.200000 0.400000")
    as (lab & Hline & _ & [(ring & rest & pts & _ & _ & Hb & _) | (x & y & w & h & Hno & _)]);
    [done | done | reflexivity | | ].
  - exists lab. repeat split; done.
  - by destruct (Hno [JFloat (qc 10 1); JInt 10; JInt 20; JInt 20] []).
Defined.

(** ** FormatConverter: grouping the annotations *)

Lemma dict_get_append {V} k k' (v : V) (d : list (Z * list V)) :
  dict_get k' (dict_append k v d) =
  if decide (k' = k) then Some (default [] (dict_get k d) ++ [v]) else dict_get k' d.
Proof.
  induction d as [|[k0 vs] d IH]; simpl.
  - by destruct (decide (k' = k)).
  - destruct (decide (k = k0)) as [->|Hne]; simpl.
    + by destruct (decide (k' = k0)).
    + rewrite IH. destruct (decide (k' = k0)) as [->|Hne']; [| done].
      by rewrite decide_False by done.
Qed.

Lemma dict_keys_append {V} k (v : V) (d : list (Z * list V)) :
  dict_keys (dict_append k v d) =
  if bool_decide (k ∈ dict_keys d) then dict_keys d else dict_keys d ++ [k].
Proof.
  induction d as [|[k' v'] d IH]; simpl; [reflexivity |].
  destruct (decide (k = k')) as [->|Hne]; simpl.
  - rewrite bool_decide_eq_true_2 by constructor. reflexivity.
  - rewrite IH. destruct (decide (k ∈ dict_keys d)) as [Hin|Hin].
    + rewrite !bool_decide_eq_true_2; [reflexivity | by constructor | done].
    + rewrite !bool_decide_eq_false_2; [reflexivity | | done].
      unfold dict_keys. simpl. rewrite elem_of_cons. tauto.
Qed.

Lemma group_annotations_fold (rest pre : list annotation) d :
  NoDup (dict_keys d) ->
  (forall k, dict_get k d =
             match filter (fun a => ann_image_id a = k) pre with
             | [] => None
             | g => Some g
             end) ->
  let d' := fold_left (fun d ann => dict_append (ann_image_id ann) ann d) rest d in
  NoDup (dict_keys d') /\
  forall k, dict_get k d' =
            match filter (fun a => ann_image_id a = k) (pre ++ rest) with
            | [] => None
            | g => Some g
            end.
Proof.
  revert pre d. induction rest as [|a rest IH]; intros pre d Hnd Hget; simpl.
  - by rewrite app_nil_r.
  - replace (pre ++ a :: rest) with ((pre ++ [a]) ++ rest) by by rewrite <- app_assoc.
    apply IH.
    + rewrite dict_keys_append. case_bool_decide; [done |].
      apply NoDup_app. repeat split; [done | | apply NoDup_singleton].
      intros x Hx Hx'. apply list_elem_of_singleton in Hx'. congruence.
    + intros k. rewrite dict_get_append, filter_app, (Hget (ann_image_id a)).
      rewrite filter_cons, filter_nil.
      destruct (decide (k = ann_image_id a)) as [->|Hne].
      * rewrite decide_True by done.
        by destruct (filter _ pre).
      * rewrite decide_False by done. rewrite app_nil_r. apply Hget.
Qed.

(** X3.  [img_to_anns] has one entry per image id that occurs in an
    annotation, and the entry of an id is the list of all annotations of that
    image in document order; an image without annotations has no entry. *)
Theorem group_annotations_by_image (annotations : list annotation) :
  NoDup (dict_keys (group_annotations annotations)) /\
  forall k, dict_get k (group_annotations annotations) =
            match filter (fun a => ann_image_id a = k) annotations with
            | [] => None
            | g => Some g
            end.
Proof.
  apply (group_annotations_fold annotations [] []); [constructor | done].
Qed.

Lemma dict_get_elem_of {V} k (v : V) d :
  NoDup (dict_keys d) -> (k, v) ∈ d -> dict_get k d = Some v.
Proof.
  induction d as [|[k' v'] d IH]; simpl.
  - intros _ Hin. by apply elem_of_nil in Hin.
  - intros [Hnotin Hnd]%NoDup_cons [[= -> ->]|Hin]%elem_of_cons.
    + by rewrite decide_True.
    + rewrite decide_False; [by apply IH |].
      intros ->. apply Hnotin. unfold dict_keys.
      apply list_elem_of_fmap. by exists (k', v).
Qed.

Lemma dict_get_None {V} k (d : list (Z * V)) :
  k ∉ dict_keys d -> dict_get k d = None.
Proof.
  intros Hk. destruct (dict_get k d) as [v|] eqn:Hg; [| done].
  exfalso. apply Hk. apply dict_get_Some in Hg.
  unfold dict_keys. apply list_elem_of_fmap. by exists (k, v).
Qed.

Lemma dict_keys_of_list {V} (kvs : list (Z * V)) k :
  k ∈ dict_keys (dict_of_list kvs) <-> k ∈ map fst kvs.
Proof.
  unfold dict_of_list.
  enough (Hgen : forall acc : list (Z * V),
    k ∈ dict_keys (fold_left (fun d kv => dict_set (fst kv) (snd kv) d) kvs acc)
    <-> k ∈ dict_keys acc \/ k ∈ map fst kvs).
  { rewrite Hgen. simpl. rewrite elem_of_nil. tauto. }
  induction kvs as [|[k0 v0] kvs IH]; intros acc; simpl.
  - rewrite elem_of_nil. tauto.
  - rewrite IH, dict_keys_set, elem_of_cons. simpl.
    case_bool_decide; [| rewrite elem_of_app, list_elem_of_singleton];
      intuition congruence.
Qed.

(** ** FormatConverter: annotations that refer to nothing *)

Lemma io_for_raises {A} (xs : list A) (body : A -> io unit) x :
  x ∈ xs ->
  (forall w, exists e w', body x w = (Raise e, w')) ->
  forall w, exists e w', io_for xs body w = (Raise e, w').
Proof.
  intros Hx Hbody. induction xs as [|y xs IH]; [by apply elem_of_nil in Hx |].
  intros w. simpl. rewrite io_bind_unfold.
  apply elem_of_cons in Hx as [<-|Hx].
  - destruct (Hbody w) as (e & w' & ->). eauto.
  - destruct (body y w) as [[[]|e] w1]; [by apply IH | eauto].
Qed.

Section DanglingReferences.
Context {PF : Platform}.

Lemma convert_image_raises coco_json output_dir images mapping train_ids val_ids
  img anns :
  dict_get img images = None \/
  (exists ann, ann ∈ anns /\ dict_get (ann_category_id ann) mapping = None) ->
  forall w, exists e w',
    convert_image coco_json output_dir images mapping train_ids val_ids (img, anns) w
    = (Raise e, w').
Proof.
  intros Hbad w. unfold convert_image. rewrite io_bind_unfold. unfold lift at 1.
  destruct (dict_get img images) as [info|]; simpl; [| eauto].
  destruct Hbad as [? | (ann & Hann & Hcat)]; [done |].
  rewrite io_bind_unfold.
  match goal with |- context [match ?m w with _ => _ end] =>
    destruct (m w) as [[[width height]|e] w1] end; [| eauto].
  rewrite io_bind_unfold. unfold exists_file at 1.
  rewrite io_bind_unfold.
  match goal with |- context [match ?m w1 with _ => _ end] =>
    destruct (m w1) as [[[]|e] w2] end; [| eauto].
  rewrite io_bind_unfold. unfold write_file at 1.
  apply (io_for_raises anns _ ann Hann).
  intros w3. rewrite io_bind_unfold. unfold lift, annotation_line.
  rewrite Hcat. simpl. eauto.
Qed.

(** X4.  An annotation whose image id is not the id of an image of the
    document, or whose category id is not the id of a category of the
    document, makes the whole conversion fail: the converter returns the
    failure tuple. *)
Theorem dangling_annotation_fails_conversion coco_json output_dir train_ratio
  val_ratio imgs annotations cats ann w :
  files w !! coco_json = Some (FJson (CocoDoc (Some imgs) (Some annotations) (Some cats))) ->
  ann ∈ annotations ->
  ann_image_id ann ∉ map img_id imgs \/ ann_category_id ann ∉ map cat_id cats ->
  fst (coco_to_yolo_noninteractive coco_json output_dir train_ratio val_ratio w)
  = (false, 0, 0, 0, []).
Proof.
  intros Hdoc Hann Hbad.
  enough (Hraise : exists e w',
            convert_body coco_json output_dir train_ratio val_ratio w = (Raise e, w')).
  { destruct Hraise as (e & w' & Hbody).
    unfold coco_to_yolo_noninteractive. by rewrite Hbody. }
  unfold convert_body. rewrite io_bind_unfold. unfold load_json. rewrite Hdoc.
  cbn [coco_images coco_annotations coco_categories or_raise].
  rewrite !io_bind_unfold. unfold lift. cbn [fst snd].
  destruct (split_sets _ _ _) as [[train_ids val_ids] test_ids].
  destruct (group_annotations_fold annotations [] [] (NoDup_nil_2) (fun _ => eq_refl))
    as [_ Hgroup].
  cbn [app] in Hgroup.
  change (fold_left _ annotations []) with (group_annotations annotations) in Hgroup.
  specialize (Hgroup (ann_image_id ann)).
  assert (Hin : ann ∈ filter (fun a => ann_image_id a = ann_image_id ann) annotations)
    by by apply list_elem_of_filter.
  destruct (filter _ annotations) as [|a0 g] eqn:Hf; [by apply elem_of_nil in Hin |].
  apply dict_get_Some in Hgroup.
  repeat (rewrite io_bind_unfold; cbn beta iota).
  set (images := dict_of_list (map (fun i => (img_id i, i)) imgs)).
  set (categories := dict_of_list (map (fun c => (cat_id c, cat_name c)) cats)).
  destruct (io_for_raises (group_annotations annotations)
              (convert_image coco_json output_dir images (category_mapping categories)
                             train_ids val_ids)
              (ann_image_id ann, a0 :: g) Hgroup) with (w := w) as (e & w' & ->);
    [| eauto].
  apply convert_image_raises. destruct Hbad as [Himg | Hcat].
  - left. apply dict_get_None. unfold images. rewrite dict_keys_of_list.
    by rewrite map_map.
  - right. exists ann. split; [done |]. apply dict_get_None.
    rewrite category_mapping_document_order by apply dict_of_list_NoDup.
    unfold dict_keys at 1. rewrite imap_keys_fst.
    unfold categories. rewrite dict_keys_of_list. by rewrite map_map.
Qed.

End DanglingReferences.

(** X4 on the demo platform: the only annotation names category 9, which
    the document does not have. *)
Lemma dangling_annotation_fails_conversion_witness :
  let ann := Annotation 1 9 None (Some [JInt 10; JInt 10; JInt 20; JInt 20]) in
  let doc :=
    CocoDoc (Some [ImageInfo 1 "a.jpg" (Some (JInt 100)) (Some (JInt 50))])
            (Some [ann]) (Some [Category 5 "cat"]) in
  let w := World {["in/coco.json" := FJson doc]} [] in
  fst (coco_to_yolo_noninteractive (PF := Demo.platform)
         "in/coco.json" "out" (qc 7 10) (qc 2 10) w)
  = (false, 0, 0, 0, []).
Proof.
  intros ann doc w.
  apply (dangling_annotation_fails_conversion (PF := Demo.platform)
           "in/coco.json" "out" (qc 7 10) (qc 2 10)
           [ImageInfo 1 "a.jpg" (Some (JInt 100)) (Some (JInt 50))]
           [ann] [Category 5 "cat"] ann w).
  - reflexivity.
  - constructor.
  - right. simpl. rewrite list_elem_of_singleton. done.
Defined.

(** ** FormatConverter: class names and class indices *)

Lemma dict_get_set {V} k k' (v : V) (d : list (Z * V)) :
  dict_get k' (dict_set k v d) = if decide (k' = k) then Some v else dict_get k' d.
Proof.
  induction d as [|[k0 v0] d IH]; simpl.
  - by destruct (decide (k' = k)).
  - destruct (decide (k = k0)) as [->|Hne]; simpl.
    + by destruct (decide (k' = k0)).
    + rewrite IH. destruct (decide (k' = k0)) as [->|Hne']; [| done].
      by rewrite decide_False by done.
Qed.

(** In a dict built from a list, a key has the value of its last
    occurrence in the list. *)
Lemma dict_of_list_last {A V} (key : A -> Z) (val : A -> V) (l : list A) k :
  dict_get k (dict_of_list (map (fun a => (key a, val a)) l)) =
  val <$> last (filter (fun a => key a = k) l).
Proof.
  unfold dict_of_list.
  enough (Hgen : forall rest pre d,
    (forall k, dict_get k d = val <$> last (filter (fun a => key a = k) pre)) ->
    forall k,
      dict_get k (fold_left (fun d kv => dict_set (fst kv) (snd kv) d)
                            (map (fun a => (key a, val a)) rest) d) =
      val <$> last (filter (fun a => key a = k) (pre ++ rest))).
  { apply (Hgen l [] []). done. }
  induction rest as [|a rest IH]; intros pre d Hd k'; simpl.
  - by rewrite app_nil_r.
  - replace (pre ++ a :: rest) with ((pre ++ [a]) ++ rest) by by rewrite <- app_assoc.
    apply IH. intros k0. rewrite dict_get_set, filter_app, filter_cons, filter_nil.
    destruct (decide (k0 = key a)) as [->|Hne].
    + rewrite decide_True by done. by rewrite last_snoc.
    + rewrite decide_False by done. rewrite app_nil_r. apply Hd.
Qed.

Lemma StronglySorted_le_lt (l : list Z) :
  StronglySorted Z.le l -> NoDup l -> StronglySorted Z.lt l.
Proof.
  induction 1 as [|x l Hl IH Hx]; intros Hnd; constructor.
  - apply IH. by apply NoDup_cons in Hnd as [_ ?].
  - apply NoDup_cons in Hnd as [Hnotin _].
    rewrite Forall_forall in Hx |- *. intros y Hy.
    specialize (Hx y Hy). assert (x <> y) by (intros ->; done). lia.
Qed.

(** [class_names] finds every sorted key in the dict. *)
Lemma class_names_Ok (categories : list (Z * string)) :
  exists names,
    class_names categories = Ok names /\
    Forall2 (fun k name => dict_get k categories = Some name)
            (merge_sort Z.le (dict_keys categories)) names.
Proof.
  apply mapM_result_Forall2, Forall_forall. intros k Hk.
  rewrite merge_sort_Permutation in Hk.
  destruct (dict_get_is_Some k categories Hk) as [name Hname].
  exists name. by rewrite Hname.
Qed.

(** X5.  [class_names] never raises.  It lists one name per distinct
    category id, in strictly ascending order of the ids; when the document
    repeats a category id, the name of its last occurrence is listed. *)
Theorem class_names_ascending (cats : list category) :
  let categories := dict_of_list (map (fun c => (cat_id c, cat_name c)) cats) in
  exists ids names,
    class_names categories = Ok names /\
    StronglySorted Z.lt ids /\
    (forall k, k ∈ ids <-> k ∈ map cat_id cats) /\
    Forall2 (fun k name =>
               cat_name <$> last (filter (fun c => cat_id c = k) cats) = Some name)
            ids names.
Proof.
  intros categories.
  set (ids := merge_sort Z.le (dict_keys categories)).
  assert (Hperm : ids ≡ₚ dict_keys categories) by apply merge_sort_Permutation.
  assert (Hnd : NoDup ids) by (rewrite Hperm; apply dict_of_list_NoDup).
  destruct (class_names_Ok categories) as (names & Hnames & HF). fold ids in HF.
  exists ids, names. repeat split.
  - exact Hnames.
  - apply StronglySorted_le_lt; [| done].
    apply StronglySorted_merge_sort; apply _.
  - rewrite Hperm. unfold categories. rewrite dict_keys_of_list. by rewrite map_map.
  - rewrite Hperm. unfold categories. rewrite dict_keys_of_list. by rewrite map_map.
  - eapply Forall2_impl; [exact HF |]. intros k name Hk. simpl in Hk.
    unfold categories in Hk. by rewrite dict_of_list_last in Hk.
Qed.

Lemma dict_get_imap_inv (ks : list Z) (f : nat -> Z) k z :
  dict_get k (imap (fun idx k' => (k', f idx)) ks) = Some z ->
  exists i, z = f i /\ ks !! i = Some k.
Proof.
  revert f. induction ks as [|k0 ks IH]; intros f; simpl; [done |].
  destruct (decide (k = k0)) as [->|Hne].
  - intros [= <-]. by exists 0%nat.
  - intros Hg. destruct (IH (f ∘ S) Hg) as (i & -> & Hi). by exists (S i).
Qed.

(** X6.  The class indices are a one-to-one numbering of the distinct
    category ids by 0, ..., n-1: every category id of the document has an
    index below n, two different ids never share an index, and every number
    below n is the index of some id. *)
Theorem class_indices_number_the_categories (cats : list category) :
  let categories := dict_of_list (map (fun c => (cat_id c, cat_name c)) cats) in
  let mapping := category_mapping categories in
  let n := length (dict_keys categories) in
  (forall k, k ∈ map cat_id cats ->
     exists i, dict_get k mapping = Some (Z.of_nat i) /\ (i < n)%nat) /\
  (forall k k' z, dict_get k mapping = Some z -> dict_get k' mapping = Some z -> k = k') /\
  (forall i, (i < n)%nat -> exists k, dict_get k mapping = Some (Z.of_nat i)).
Proof.
  intros categories mapping n.
  assert (Hmap : mapping = imap (fun idx cat => (cat, Z.of_nat idx)) (dict_keys categories))
    by (apply category_mapping_document_order, dict_of_list_NoDup).
  repeat split.
  - intros k Hk.
    assert (Hin : k ∈ dict_keys categories)
      by (unfold categories; rewrite dict_keys_of_list; by rewrite map_map).
    apply list_elem_of_lookup in Hin as [i Hi]. exists i. split.
    + by apply category_mapping_lookup.
    + by apply lookup_lt_Some in Hi.
  - intros k k' z Hk Hk'. rewrite Hmap in Hk, Hk'.
    apply dict_get_imap_inv in Hk as (i & -> & Hi).
    apply dict_get_imap_inv in Hk' as (i' & Heq & Hi').
    apply Nat2Z.inj in Heq as <-. congruence.
  - intros i Hi. destruct (lookup_lt_is_Some_2 (dict_keys categories) i Hi) as [k Hk].
    exists k. by apply category_mapping_lookup.
Qed.

(** ** FormatConverter: a document without annotations *)

Section NoAnnotations.
Context {PF : Platform}.

(** X7.  A document without annotations converts successfully: nothing is
    copied and no label file is written, only [classes.txt] and [data.yaml],
    while the returned counts are still those of the split of all images of
    the document. *)
Theorem conversion_without_annotations coco_json output_dir train_ratio val_ratio
  imgs cats w :
  files w !! coco_json = Some (FJson (CocoDoc (Some imgs) (Some []) (Some cats))) ->
  let images := dict_of_list (map (fun i => (img_id i, i)) imgs) in
  let categories := dict_of_list (map (fun c => (cat_id c, cat_name c)) cats) in
  exists names train_ids val_ids test_ids,
    class_names categories = Ok names /\
    split_sets (shuffle (dict_keys images)) train_ratio val_ratio
    = (train_ids, val_ids, test_ids) /\
    coco_to_yolo_noninteractive coco_json output_dir train_ratio val_ratio w =
    ((true, Z.of_nat (size train_ids), Z.of_nat (size val_ids),
      Z.of_nat (size test_ids), names),
     World (<[path_join output_dir "data.yaml" :=
                FYaml (Manifest (path_absolute output_dir) "train/images"
                                "valid/images" "test/images"
                                (Z.of_nat (length names)) names)]>
              (<[path_join output_dir "classes.txt" := FText names]> (files w)))
           (logs w)).
Proof.
  intros Hdoc images categories.
  destruct (class_names_Ok categories) as (names & Hnames & _).
  destruct (split_sets (shuffle (dict_keys images)) train_ratio val_ratio)
    as [[train_ids val_ids] test_ids] eqn:Hsplit.
  exists names, train_ids, val_ids, test_ids. repeat split; [done |].
  unfold coco_to_yolo_noninteractive, convert_body.
  rewrite io_bind_unfold. unfold load_json. rewrite Hdoc.
  cbn [coco_images coco_annotations coco_categories or_raise].
  unfold lift. repeat (rewrite io_bind_unfold; cbn beta iota).
  fold images. rewrite Hsplit. cbn [group_annotations fold_left io_for].
  repeat (rewrite io_bind_unfold; cbn beta iota). unfold mret at 1, io_ret.
  repeat (rewrite io_bind_unfold; cbn beta iota). fold categories. rewrite Hnames.
  repeat (rewrite io_bind_unfold; cbn beta iota). by destruct w.
Qed.

End NoAnnotations.

(** X7 on the demo platform: three images, no annotation. *)
Lemma conversion_without_annotations_witness :
  let imgs := (fun i => ImageInfo i "img.jpg" None None) <$> seqZ 1 3 in
  let doc := CocoDoc (Some imgs) (Some []) (Some [Category 5 "cat"]) in
  let w := World {["in/coco.json" := FJson doc]} [] in
  exists names train_ids val_ids test_ids,
    class_names (dict_of_list [(5, "cat")]) = Ok names /\
    split_sets (shuffle (Platform := Demo.platform)
                  (dict_keys (dict_of_list (map (fun i => (img_id i, i)) imgs))))
               (qc 7 10) (qc 2 10)
    = (train_ids, val_ids, test_ids) /\
    coco_to_yolo_noninteractive (PF := Demo.platform)
      "in/coco.json" "out" (qc 7 10) (qc 2 10) w =
    ((true, Z.of_nat (size train_ids), Z.of_nat (size val_ids),
      Z.of_nat (size test_ids), names),
     World (<["out/data.yaml" :=
                FYaml (Manifest "out" "train/images" "valid/images" "test/images"
                                (Z.of_nat (length names)) names)]>
              (<["out/classes.txt" := FText names]> (files w)))
           (logs w)).
Proof.
  intros imgs doc w.
  apply (conversion_without_annotations (PF := Demo.platform)
           "in/coco.json" "out" (qc 7 10) (qc 2 10) imgs [Category 5 "cat"] w).
  reflexivity.
Defined.

(** ** FormatConverter: where it writes *)

Lemma keeps_outside_ret {A} P (a : A) : keeps_outside P (mret a).
Proof. intros w r w' p [= <- <-]. done. Qed.

Lemma keeps_outside_lift {A} P (r : result A) : keeps_outside P (lift r).
Proof. intros w r' w' p [= <- <-]. done. Qed.

Lemma keeps_outside_bind {A B} P (m : io A) (f : A -> io B) :
  keeps_outside P m -> (forall a, keeps_outside P (f a)) -> keeps_outside P (m ≫= f).
Proof.
  intros Hm Hf w r w' p. rewrite io_bind_unfold.
  destruct (m w) as [[a|e] w1] eqn:Hmw.
  - intros Hfw Hp. rewrite (Hf a _ _ _ _ Hfw Hp). by eapply Hm.
  - intros [= <- <-] Hp. by eapply Hm.
Qed.

Lemma keeps_outside_write_file (P : string -> Prop) path f :
  P path -> keeps_outside P (write_file path f).
Proof.
  intros HP w r w' p [= <- <-] Hp. simpl.
  apply lookup_insert_ne. by intros ->.
Qed.

Lemma keeps_outside_exists_file P path : keeps_outside P (exists_file path).
Proof. intros w r w' p [= <- <-]. done. Qed.

Lemma keeps_outside_copy_file (P : string -> Prop) src dst :
  P dst -> keeps_outside P (copy_file src dst).
Proof.
  intros HP w r w' p. unfold copy_file.
  destruct (files w !! src); intros [= <- <-] Hp; [| done]. simpl.
  apply lookup_insert_ne. by intros ->.
Qed.

Lemma keeps_outside_append_line (P : string -> Prop) path line :
  P path -> keeps_outside P (append_line path line).
Proof.
  intros HP w r w' p. unfold append_line.
  destruct (files w !! path) as [[]|]; intros [= <- <-] Hp; try done. simpl.
  apply lookup_insert_ne. by intros ->.
Qed.

Lemma keeps_outside_io_for {A} P (xs : list A) (body : A -> io unit) :
  (forall x, keeps_outside P (body x)) -> keeps_outside P (io_for xs body).
Proof.
  intros Hbody. induction xs as [|x xs IH]; simpl.
  - apply keeps_outside_ret.
  - apply keeps_outside_bind; [apply Hbody | intros _; exact IH].
Qed.

Lemma keeps_outside_io_fold {A S} P (xs : list A) (body : A -> S -> io S) s :
  (forall x s, keeps_outside P (body x s)) -> keeps_outside P (io_fold xs body s).
Proof.
  intros Hbody. revert s. induction xs as [|x xs IH]; intros s; simpl.
  - apply keeps_outside_ret.
  - apply keeps_outside_bind; [apply Hbody | intros s'; apply IH].
Qed.

Section ConverterWrites.
Context {PF : Platform}.

Lemma split_name_cases img train_ids val_ids :
  split_name img train_ids val_ids ∈ ["train"; "valid"; "test"].
Proof. unfold split_name. repeat case_decide; set_solver. Qed.

Lemma keeps_outside_convert_image coco_json output_dir images mapping train_ids
  val_ids item :
  keeps_outside (converter_output output_dir)
    (convert_image coco_json output_dir images mapping train_ids val_ids item).
Proof.
  destruct item as [img anns]. unfold convert_image.
  assert (Hout : forall kind name, kind ∈ ["images"; "labels"] ->
    converter_output output_dir
      (path_join (path_join (path_join output_dir
                    (split_name img train_ids val_ids)) kind) name)).
  { intros kind name Hkind. left. eexists _, _, _.
    split; [apply split_name_cases |]. split; [exact Hkind | done]. }
  apply keeps_outside_bind; [apply keeps_outside_lift | intros info].
  apply keeps_outside_bind.
  { destruct (img_info_width info), (img_info_height info);
      try apply keeps_outside_ret;
      intros w r w' p; unfold image_size;
      destruct (files w !! _) as [[]|]; intros [= <- <-]; done. }
  intros [width height].
  apply keeps_outside_bind; [apply keeps_outside_exists_file | intros present].
  apply keeps_outside_bind.
  { destruct present; [| apply keeps_outside_ret].
    apply keeps_outside_copy_file, Hout. set_solver. }
  intros _. apply keeps_outside_bind.
  { apply keeps_outside_write_file, Hout. set_solver. }
  intros _. apply keeps_outside_io_for. intros ann.
  apply keeps_outside_bind; [apply keeps_outside_lift | intros line].
  apply keeps_outside_append_line, Hout. set_solver.
Qed.

(** X8.  Whether it succeeds or fails, the conversion changes no path other
    than the image and label folders of the three splits, [classes.txt] and
    [data.yaml] under the output directory: the annotation document and the
    source images are left as they are. *)
Theorem conversion_writes_only_output coco_json output_dir train_ratio val_ratio
  w p :
  ~ converter_output output_dir p ->
  files (snd (coco_to_yolo_noninteractive coco_json output_dir train_ratio val_ratio w))
    !! p
  = files w !! p.
Proof.
  intros Hp.
  assert (Hbody : keeps_outside (converter_output output_dir)
                    (convert_body coco_json output_dir train_ratio val_ratio)).
  { unfold convert_body.
    apply keeps_outside_bind.
    { intros w0 r w' p0. unfold load_json.
      destruct (files w0 !! _) as [[]|]; intros [= <- <-]; done. }
    intros coco.
    apply keeps_outside_bind; [apply keeps_outside_lift | intros imgs].
    apply keeps_outside_bind; [apply keeps_outside_lift | intros annotations].
    apply keeps_outside_bind; [apply keeps_outside_lift | intros cats].
    destruct (split_sets _ _ _) as [[train_ids val_ids] test_ids].
    apply keeps_outside_bind.
    { apply keeps_outside_io_for. intros item. apply keeps_outside_convert_image. }
    intros _. apply keeps_outside_bind; [apply keeps_outside_lift | intros names].
    apply keeps_outside_bind.
    { apply keeps_outside_write_file. right. by left. }
    intros _. apply keeps_outside_bind.
    { apply keeps_outside_write_file. right. by right. }
    intros _. apply keeps_outside_ret. }
  unfold coco_to_yolo_noninteractive.
  destruct (convert_body _ _ _ _ w) as [[[[[n1 n2] n3] names]|e] w'] eqn:Hrun;
    simpl; eapply Hbody; eauto.
Qed.

End ConverterWrites.

(** X8 on the demo platform: the annotation document is still there after a
    conversion into [out]. *)
Lemma conversion_writes_only_output_witness :
  let doc :=
    CocoDoc (Some [ImageInfo 1 "a.jpg" (Some (JInt 100)) (Some (JInt 50))])
            (Some [Annotation 1 5 None (Some [JInt 10; JInt 10; JInt 20; JInt 20])])
            (Some [Category 5 "cat"]) in
  let w := World {["in/coco.json" := FJson doc]} [] in
  files (snd (coco_to_yolo_noninteractive (PF := Demo.platform)
                "in/coco.json" "out" (qc 7 10) (qc 2 10) w)) !! "in/coco.json"
  = files w !! "in/coco.json".
Proof.
  intros doc w.
  apply (conversion_writes_only_output (PF := Demo.platform)
           "in/coco.json" "out" (qc 7 10) (qc 2 10) w "in/coco.json").
  intros [(split & kind & name & _ & _ & Heq) | [Heq | Heq]];
    cbv in Heq; discriminate.
Defined.

(** ** FormatConverter: images without dimensions in the document *)

Section MissingDimensions.
Context {PF : Platform}.

(** X9.  When the document gives no width or no height for an image, the
    loop body opens the image file: it raises [FileNotFoundError], before
    writing anything, when the file is absent, and otherwise it does what it
    would do had the document given the width and height of the image
    file. *)
Theorem image_file_stands_in_for_dimensions coco_json output_dir images mapping
  train_ids val_ids img anns info w :
  dict_get img images = Some info ->
  img_info_width info = None \/ img_info_height info = None ->
  let src := path_join (path_parent coco_json) (img_file_name info) in
  (files w !! src = None ->
   convert_image coco_json output_dir images mapping train_ids val_ids (img, anns) w
   = (Raise FileNotFoundError, w)) /\
  (forall im, files w !! src = Some (FImage im) ->
   convert_image coco_json output_dir images mapping train_ids val_ids (img, anns) w
   = convert_image coco_json output_dir
       [(img, ImageInfo (img_id info) (img_file_name info)
                        (Some (JInt (Zpos (img_width im))))
                        (Some (JInt (Zpos (img_height im)))))]
       mapping train_ids val_ids (img, anns) w).
Proof.
  intros Hinfo Hdims src. split.
  - intros Hsrc. unfold convert_image. rewrite io_bind_unfold. unfold lift at 1.
    rewrite Hinfo. cbn [or_raise]. rewrite io_bind_unfold. fold src.
    assert (Hsize : image_size src w = (Raise FileNotFoundError, w))
      by (unfold image_size; by rewrite Hsrc).
    destruct Hdims as [-> | ->]; [| destruct (img_info_width info)];
      by rewrite Hsize.
  - intros im Hsrc. unfold convert_image. rewrite !(io_bind_unfold (lift _)).
    unfold lift. rewrite Hinfo. cbn [dict_get or_raise]. rewrite decide_True by done.
    cbn [img_info_width img_info_height img_file_name].
    rewrite !(io_bind_unfold _ _ w). fold src.
    assert (Hsize : image_size src w
                    = (Ok (Qc_of_Z (Zpos (img_width im)), Qc_of_Z (Zpos (img_height im))), w))
      by (unfold image_size; by rewrite Hsrc).
    unfold mret at 2, io_ret. cbn [jnum_val].
    destruct Hdims as [-> | ->]; [| destruct (img_info_width info)];
      by rewrite Hsize.
Qed.

End MissingDimensions.

(** X9 on the demo platform: image 1 has no dimensions in the document and
    its file is absent. *)
Lemma image_file_stands_in_for_dimensions_witness :
  let info := ImageInfo 1 "a.jpg" None None in
  let w := World ∅ [] in
  convert_image (PF := Demo.platform) "in/coco.json" "out" [(1, info)] [(5, 0)]
                {[1]} ∅ (1, []) w
  = (Raise FileNotFoundError, w).
Proof.
  intros info w.
  apply (image_file_stands_in_for_dimensions (PF := Demo.platform)
           "in/coco.json" "out" [(1, info)] [(5, 0)] {[1]} ∅ 1 [] info w);
    [reflexivity | by left | reflexivity].
Defined.


(** ** GeometryEngine: the collected geometry *)

Lemma collect_geometry_lengths orig_w orig_h labels g0 :
  length (keypoints_cls g0) = length (keypoints g0) ->
  length (bboxes_cls g0) = length (bboxes_pascal g0) ->
  let g := fold_left (collect_label orig_w orig_h) labels g0 in
  length (keypoints_cls g) = length (keypoints g) /\
  length (bboxes_cls g) = length (bboxes_pascal g).
Proof.
  revert g0. induction labels as [|lab labels IH]; intros g0 Hk Hb; simpl; [done |].
  apply IH; unfold collect_label;
    destruct (lab_bbox lab) as [[[[cx cy] bw] bh]|]; [| destruct (lab_poly lab) | |
    destruct (lab_poly lab)]; simpl; rewrite ?length_app, ?length_map; simpl; lia.
Qed.

Lemma Forall2_map_eq {A B C} (f : A -> C) (g : B -> C) la lb :
  Forall2 (fun a b => f a = g b) la lb -> map f la = map g lb.
Proof. induction 1; simpl; congruence. Qed.

(** X10.  The lists built from the labels of an image stay parallel (one
    class per keypoint, one class per box), there is one split per polygon
    input, and cutting the keypoint list at the splits gives back the
    polygons, in pixels, with their classes. *)
Theorem collected_geometry_reconstructs orig_w orig_h labels :
  let g := collect_geometry orig_w orig_h labels in
  length (keypoints_cls g) = length (keypoints g) /\
  length (bboxes_cls g) = length (bboxes_pascal g) /\
  length (poly_splits g) = length (poly_inputs labels) /\
  reconstruct_polygons_from_keypoints (keypoints g) (poly_splits g) =
  map (fun i => (fst i, to_pixels orig_w orig_h (snd i))) (poly_inputs labels).
Proof.
  intros g.
  destruct (collect_geometry_lengths orig_w orig_h labels no_geometry eq_refl eq_refl)
    as [Hk Hb].
  destruct (collect_geometry_spec orig_w orig_h labels) as (_ & _ & E3 & E4).
  fold g in E3, E4.
  pose proof (split_offsets_slices orig_w orig_h (poly_inputs labels) []) as HF.
  simpl in HF. change (Z.of_nat 0) with 0 in HF. rewrite <- E3, <- E4 in HF.
  repeat split; [exact Hk | exact Hb | by apply Forall2_length in HF |].
  rewrite reconstruct_polygons_map. apply Forall2_map_eq.
  eapply Forall2_impl; [exact HF |]. intros s i [Hc Hs]. simpl. congruence.
Qed.

(** ** GeometryEngine: polygons without vertices *)





(** ** GeometryEngine: the box of a short polygon *)

Lemma unscale_scale pts w h :
  (0 < w)%Qc -> (0 < h)%Qc ->
  map (fun p => (fst p * w, snd p * h)%Qc)
      (map (fun p => (fst p / w, snd p / h)%Qc) pts) = pts.
Proof.
  intros Hw Hh. pose proof (Qc_pos_neq_0 _ Hw). pose proof (Qc_pos_neq_0 _ Hh).
  rewrite map_map. rewrite <- (map_id pts) at 2. apply map_ext. intros [x y]. simpl.
  f_equal; field; done.
Qed.

Lemma extent_bbox_size pts cx cy bw bh :
  extent_bbox pts = Ok (cx, cy, bw, bh) -> (0 ≤ bw)%Qc /\ (0 ≤ bh)%Qc.
Proof.
  unfold extent_bbox. destruct pts as [|p pts]; [done |].
  destruct (list_min (map fst (p :: pts))) as [x1|] eqn:Hx1; [| done].
  destruct (list_max (map fst (p :: pts))) as [x2|] eqn:Hx2; [| done].
  destruct (list_min (map snd (p :: pts))) as [y1|] eqn:Hy1; [| done].
  destruct (list_max (map snd (p :: pts))) as [y2|] eqn:Hy2; [| done].
  simpl. intros [= _ _ <- <-].
  apply list_min_le, Forall_inv in Hx1, Hy1. apply list_max_ge, Forall_inv in Hx2, Hy2.
  split; [apply (proj1 (Qcle_minus_iff x1 x2)) | apply (proj1 (Qcle_minus_iff y1 y2))];
    eapply Qcle_trans; eassumption.
Qed.

(** X12.  For an image of positive size and a polygon with at least one
    vertex, [polygon_to_bbox_norm] returns a normalized box of non-negative
    width and height that contains every vertex of the polygon. *)
Theorem polygon_box_contains_vertices pts img_w img_h :
  (0 < img_w)%Qc -> (0 < img_h)%Qc -> pts <> [] ->
  exists cx cy bw bh,
    polygon_to_bbox_norm pts img_w img_h = Ok (cx, cy, bw, bh) /\
    (0 ≤ bw)%Qc /\ (0 ≤ bh)%Qc /\
    Forall (fun p => covers (cx, cy, bw, bh) (fst p / img_w, snd p / img_h)%Qc) pts.
Proof.
  intros Hw Hh Hne.
  assert (E : polygon_to_bbox_norm pts img_w img_h =
              extent_bbox (map (fun p => (fst p / img_w, snd p / img_h)%Qc) pts)).
  { rewrite <- polygon_to_bbox_norm_scaled with (w := img_w) (h := img_h) by done.
    by rewrite unscale_scale. }
  rewrite E.
  destruct (extent_bbox_nonempty (map (fun p => (fst p / img_w, snd p / img_h)%Qc) pts))
    as ([[[cx cy] bw] bh] & Hb & Hcov); [by destruct pts |].
  exists cx, cy, bw, bh. destruct (extent_bbox_size _ _ _ _ _ Hb) as [Hbw Hbh].
  repeat split; [exact Hb | exact Hbw | exact Hbh |].
  by rewrite Forall_map in Hcov.
Qed.

Lemma polygon_box_contains_vertices_witness :
  exists cx cy bw bh,
    polygon_to_bbox_norm [(Qc_of_Z 10, Qc_of_Z 20); (Qc_of_Z 30, Qc_of_Z 5)]
                         (Qc_of_Z 100) (Qc_of_Z 50) = Ok (cx, cy, bw, bh) /\
    (0 ≤ bw)%Qc /\ (0 ≤ bh)%Qc /\
    Forall (fun p => covers (cx, cy, bw, bh)
                            (fst p / Qc_of_Z 100, snd p / Qc_of_Z 50)%Qc)
           [(Qc_of_Z 10, Qc_of_Z 20); (Qc_of_Z 30, Qc_of_Z 5)].
Proof.
  apply (polygon_box_contains_vertices
           [(Qc_of_Z 10, Qc_of_Z 20); (Qc_of_Z 30, Qc_of_Z 5)]
           (Qc_of_Z 100) (Qc_of_Z 50)); [reflexivity | reflexivity | discriminate].
Defined.

(** ** GeometryEngine: a transform that moves nothing *)

Lemma clamp01_id v : in01 v -> clamp01 v = v.
Proof.
  intros [H0 H1]. unfold clamp01, Qc_max, Qc_min.
  rewrite (decide_False (P := (1 < v)%Qc)) by by apply Qcle_not_lt.
  by rewrite decide_False by by apply Qcle_not_lt.
Qed.

Lemma Forall_py_slice {A} (P : A -> Prop) (l : list A) lo hi :
  Forall P l -> Forall P (py_slice l lo hi).
Proof. intros Hl. unfold py_slice. by apply Forall_take, Forall_drop. Qed.

(** X13.  When the keypoints a geometric transform returns lie inside the
    new image, the labels of the geometric path are those the photometric
    path computes from the same boxes and keypoints: the two paths differ
    only by the clamping of the vertices. *)
Theorem paths_agree_inside_image new_w new_h (g : geometry) :
  (0 < new_w)%Qc -> (0 < new_h)%Qc ->
  Forall (fun p => in01 (fst p / new_w) /\ in01 (snd p / new_h)) (keypoints g) ->
  geo_labels new_w new_h (bboxes_pascal g) (bboxes_cls g) (keypoints g) (poly_splits g)
  = photo_labels new_w new_h g.
Proof.
  intros Hw Hh Hin. unfold geo_labels, photo_labels.
  rewrite !for_each_append. 
  assert (E : mapM (geo_poly_label new_w new_h)
                (reconstruct_polygons_from_keypoints (keypoints g) (poly_splits g)) =
              mapM (photo_poly_label new_w new_h (keypoints g)) (poly_splits g)).
  { rewrite reconstruct_polygons_map. apply mapM_result_ext.
    apply Forall2_fmap_l, Forall_Forall2_diag, Forall_forall.
    intros [[cls start] len] _. unfold geo_poly_label, photo_poly_label.
    unfold compose. cbn beta iota delta [fst snd].
    set (pts := py_slice (keypoints g) _ _).
    assert (Hpts : Forall (fun p => in01 (fst p / new_w) /\ in01 (snd p / new_h)) pts)
      by by apply Forall_py_slice.
    assert (Hnorm : map (fun p => (clamp01 (fst p / new_w), clamp01 (snd p / new_h))) pts
                    = map (fun p => (fst p / new_w, snd p / new_h)%Qc) pts).
    { apply Forall_fmap_ext_1. eapply Forall_impl; [exact Hpts |].
      intros p [H1 H2]. simpl. by rewrite !clamp01_id. }
    rewrite Hnorm. destruct (3 <=? _)%nat; [reflexivity |].
    by rewrite unscale_scale. }
  rewrite E. destruct (poly_splits g) as [|s splits]; [| reflexivity].
  simpl. by rewrite app_nil_r.
Qed.

Lemma paths_agree_inside_image_witness :
  let g := Geometry [(Qc_of_Z 5, Qc_of_Z 20)] [2] [(2, 0, 1)] [] [] in
  geo_labels (Qc_of_Z 10) (Qc_of_Z 40) [] [] (keypoints g) (poly_splits g)
  = photo_labels (Qc_of_Z 10) (Qc_of_Z 40) g.
Proof.
  intros g.
  apply (paths_agree_inside_image (Qc_of_Z 10) (Qc_of_Z 40) g);
    [reflexivity | reflexivity |].
  repeat constructor; by vm_compute.
Defined.

(** ** AugmentationOrchestrator: where it writes *)

Lemma keeps_outside_reader {A} P (m : io A) :
  (forall w, snd (m w) = w) -> keeps_outside P m.
Proof. intros Hm w r w' p Hrun _. specialize (Hm w). rewrite Hrun in Hm. by subst. Qed.

Section AugmentWrites.
Context {PF : Platform} {AU : Augmenter}.

Lemma keeps_outside_augment_image lbl_dir out_img_dir out_lbl_dir img_file augmented :
  keeps_outside (augment_output out_img_dir out_lbl_dir)
    (augment_image lbl_dir out_img_dir out_lbl_dir img_file augmented).
Proof.
  assert (Himg : forall name, augment_output out_img_dir out_lbl_dir
                                (path_join out_img_dir name))
    by (intros name; exists name; by left).
  assert (Hlbl : forall name, augment_output out_img_dir out_lbl_dir
                                (path_join out_lbl_dir name))
    by (intros name; exists name; by right).
  unfold augment_image.
  apply keeps_outside_bind; [by apply keeps_outside_reader |].
  intros [img|]; [| apply keeps_outside_ret].
  apply keeps_outside_bind.
  { apply keeps_outside_reader. intros w. unfold read_labels.
    by destruct (files w !! _) as [[]|]. }
  intros labels.
  apply keeps_outside_bind; [apply keeps_outside_copy_file, Himg |]. intros _.
  apply keeps_outside_bind; [apply keeps_outside_exists_file |]. intros has_label.
  apply keeps_outside_bind.
  { destruct has_label; [apply keeps_outside_copy_file, Hlbl | apply keeps_outside_ret]. }
  intros _. apply keeps_outside_bind.
  { destruct (_ || _); [| apply keeps_outside_ret].
    apply keeps_outside_io_fold. intros [name aug] n. unfold geo_step.
    apply keeps_outside_bind; [apply keeps_outside_lift |]. intros transformed.
    apply keeps_outside_bind; [apply keeps_outside_lift |]. intros new_labels.
    apply keeps_outside_bind; [apply keeps_outside_write_file, Himg |]. intros _.
    apply keeps_outside_bind; [apply keeps_outside_write_file, Hlbl |]. intros _.
    apply keeps_outside_ret. }
  intros n. apply keeps_outside_io_fold. intros [name aug] n'. unfold photo_step.
  apply keeps_outside_bind; [apply keeps_outside_lift |]. intros aug_img.
  apply keeps_outside_bind; [apply keeps_outside_write_file, Himg |]. intros _.
  apply keeps_outside_bind; [apply keeps_outside_lift |]. intros new_labels.
  apply keeps_outside_bind; [apply keeps_outside_write_file, Hlbl |]. intros _.
  apply keeps_outside_ret.
Qed.

(** X14.  Whether it succeeds or raises, the augmentation of a split changes
    no path other than files of its output image folder and of its output
    label folder: the source images and label files are left as they are. *)
Theorem augmentation_writes_only_output lbl_dir out_img_dir out_lbl_dir img_files
  w p :
  ~ augment_output out_img_dir out_lbl_dir p ->
  files (snd (augment_split lbl_dir out_img_dir out_lbl_dir img_files w)) !! p
  = files w !! p.
Proof.
  intros Hp.
  destruct (augment_split lbl_dir out_img_dir out_lbl_dir img_files w) as [r w']
    eqn:Hrun.
  simpl. eapply (keeps_outside_io_fold (augment_output out_img_dir out_lbl_dir));
    [| exact Hrun | exact Hp].
  intros img_file n. apply keeps_outside_augment_image.
Qed.

(** X15.  Image files that OpenCV cannot decode are skipped: a split that
    holds only such files is left without any output, not even a copy of a
    file, and its count of augmented images is 0. *)
Theorem undecodable_images_are_skipped lbl_dir out_img_dir out_lbl_dir img_files w :
  Forall (fun img_file => forall im, files w !! img_file <> Some (FImage im)) img_files ->
  augment_split lbl_dir out_img_dir out_lbl_dir img_files w = (Ok 0, w).
Proof.
  intros Hall. unfold augment_split. generalize 0.
  induction Hall as [|img_file img_files Hbad _ IH]; intros n; [reflexivity |].
  cbn [io_fold]. rewrite io_bind_unfold.
  assert (Hskip : augment_image lbl_dir out_img_dir out_lbl_dir img_file n w = (Ok n, w)).
  { unfold augment_image. rewrite io_bind_unfold. unfold cv2_imread.
    destruct (files w !! img_file) as [[im| | | |]|]; try reflexivity.
    by destruct (Hbad im). }
  rewrite Hskip. apply IH.
Qed.

End AugmentWrites.

(** X14 on the demo platform: the source image and its label file are still
    there after the augmentation of the split. *)
Lemma augmentation_writes_only_output_witness :
  let img := Image 2 2 [1; 2; 3; 4] in
  let w := World {["in/images/a.jpg" := FImage img;
                   "in/labels/a.txt" := FText ["0 0.500000 0.500000 0.250000 0.250000"]]} [] in
  files (snd (augment_split (PF := Demo.platform) (AU := Demo.augmenter)
                "in/labels" "out/images" "out/labels" ["in/images/a.jpg"] w))
    !! "in/labels/a.txt"
  = files w !! "in/labels/a.txt".
Proof.
  intros img w.
  apply (augmentation_writes_only_output (PF := Demo.platform) (AU := Demo.augmenter)
           "in/labels" "out/images" "out/labels" ["in/images/a.jpg"] w
           "in/labels/a.txt").
  intros [name [Heq | Heq]]; cbv in Heq; discriminate.
Defined.

(** X15 on the demo platform: a text file with the name of an image. *)
Lemma undecodable_images_are_skipped_witness :
  let w := World {["in/images/a.jpg" := FText ["not an image"]]} [] in
  augment_split (PF := Demo.platform) (AU := Demo.augmenter)
    "in/labels" "out/images" "out/labels" ["in/images/a.jpg"; "in/images/b.jpg"] w
  = (Ok 0, w).
Proof.
  intros w.
  apply (undecodable_images_are_skipped (PF := Demo.platform) (AU := Demo.augmenter)
           "in/labels" "out/images" "out/labels"
           ["in/images/a.jpg"; "in/images/b.jpg"] w).
  repeat constructor; intros im; by vm_compute.
Defined.

(** ** The search for the annotation document *)

Section LocatorFacts.
Variable os_path_join : string -> string -> string.

Lemma scan_files_none root files coco_json :
  Forall (fun file => is_candidate file = false) files ->
  scan_files os_path_join root files coco_json = coco_json.
Proof. induction 1 as [|file files Hf _ IH]; simpl; [done | by rewrite Hf]. Qed.

Lemma scan_files_first root files coco_json file :
  List.find is_candidate files = Some file ->
  scan_files os_path_join root files coco_json = Some (os_path_join root file).
Proof.
  induction files as [|f files IH]; simpl; [done |].
  destruct (is_candidate f); [by intros [= ->] | exact IH].
Qed.

Lemma no_candidate_coco_json dir : no_candidate dir -> "coco.json" ∉ snd dir.
Proof.
  intros Hno Hin. unfold no_candidate in Hno. rewrite Forall_forall in Hno.
  by specialize (Hno _ Hin).
Qed.

Lemma search_walk_skips before walk coco_json :
  Forall no_candidate before -> truthy coco_json = false ->
  search_walk os_path_join (before ++ walk) coco_json
  = search_walk os_path_join walk coco_json.
Proof.
  intros Hbefore Hc. induction Hbefore as [|[root files] before Hno _ IH]; [done |].
  cbn [app search_walk].
  rewrite bool_decide_eq_false_2 by by apply (no_candidate_coco_json (root, files)).
  rewrite (scan_files_none root files coco_json Hno). cbn zeta. by rewrite Hc.
Qed.

Lemma search_walk_keeps walk path :
  exists path', search_walk os_path_join walk (Some path) = Some path'.
Proof.
  revert path. induction walk as [|[root files] walk IH]; intros path; simpl; [eauto |].
  case_bool_decide; [eauto |].
  destruct (scan_files os_path_join root files (Some path)) as [path'|] eqn:Hscan.
  - destruct (truthy (Some path')); eauto.
  - exfalso. clear -Hscan. induction files as [|f files IHf]; simpl in Hscan; [done |].
    destruct (is_candidate f); [done | auto].
Qed.

(** X16.  The search takes the first directory of the walk that holds a file
    whose name ends in [.json] and contains [coco] in any case; in that
    directory it takes [coco.json] when it is there and the first such file
    otherwise.  A [coco.json] in a later directory is not looked at. *)
Theorem search_takes_first_directory before root files after file :
  (forall r f, f <> "" -> os_path_join r f <> "") ->
  Forall no_candidate before ->
  List.find is_candidate files = Some file ->
  find_coco_json os_path_join (before ++ (root, files) :: after)
  = Ok (os_path_join root
          (if bool_decide ("coco.json" ∈ files) then "coco.json" else file)).
Proof.
  intros Hjoin Hbefore Hfirst. unfold find_coco_json.
  rewrite search_walk_skips by done. cbn [search_walk].
  case_bool_decide; [reflexivity |].
  rewrite (scan_files_first root files None file Hfirst). cbn zeta.
  apply find_some in Hfirst as [_ Hcand].
  assert (Hne : os_path_join root file <> "").
  { apply Hjoin. by intros ->. }
  unfold truthy. by destruct (os_path_join root file).
Qed.

(** X17.  The search raises [FileNotFoundError] exactly when no directory of
    the walk holds a file whose name ends in [.json] and contains [coco]. *)
Theorem search_fails_without_candidate walk :
  find_coco_json os_path_join walk = Raise FileNotFoundError <->
  Forall no_candidate walk.
Proof.
  unfold find_coco_json. split.
  - induction walk as [|[root files] walk IH]; [constructor |]. cbn [search_walk].
    case_bool_decide; [done |].
    destruct (scan_files os_path_join root files None) as [path|] eqn:Hscan.
    + cbn zeta. destruct (truthy (Some path)); [done |].
      destruct (search_walk_keeps walk path) as [path' ->]. done.
    + cbn zeta. cbn [truthy]. intros Hrest. constructor; [| by apply IH].
      clear -Hscan. unfold no_candidate. cbn [snd].
      induction files as [|f files IHf]; [constructor |]. simpl in Hscan.
      destruct (is_candidate f) eqn:Hf; [done |]. constructor; auto.
  - intros Hall. rewrite <- (app_nil_r walk).
    by rewrite search_walk_skips.
Qed.

End LocatorFacts.

(** X16 on POSIX paths: [notes_COCO.json] of the first directory is taken,
    not [coco.json] of the second one. *)
Lemma search_takes_first_directory_witness :
  find_coco_json Demo.join
    [("tmp", ["readme.txt"]); ("tmp/a", ["x.json"; "notes_COCO.json"]);
     ("tmp/b", ["coco.json"])]
  = Ok "tmp/a/notes_COCO.json".
Proof.
  apply (search_takes_first_directory Demo.join [("tmp", ["readme.txt"])]
           "tmp/a" ["x.json"; "notes_COCO.json"] [("tmp/b", ["coco.json"])]
           "notes_COCO.json").
  - intros r f Hf. unfold Demo.join. destruct r, f; done.
  - repeat constructor.
  - reflexivity.
Defined.

(** ** FormatConverter: annotations without a usable shape *)

Section MalformedAnnotations.
Context {PF : Platform}.




End MalformedAnnotations.


(** ** AugmentationCatalog: [low_res] *)

Section LowRes.
Context {PF : Platform} {AU : Augmenter}.

(** X19.  [low_res] never asks OpenCV for an empty image: when [cv2.resize]
    accepts every size of at least 1 x 1, [low_res] returns an image,
    however small its input and whatever scale factor is drawn. *)
Theorem low_res_requests_positive_sizes img :
  (forall im w h, 0 < w -> 0 < h -> exists r, cv2_resize im w h = Ok r) ->
  exists r, low_res img = Ok r.
Proof.
  intros Hresize. unfold low_res.
  destruct (Hresize img
              (Z.max 1 (int_of_float (Qc_of_Z (Zpos (img_width img)) *
                                      np_random_uniform (qc 3 10) (qc 5 10))))
              (Z.max 1 (int_of_float (Qc_of_Z (Zpos (img_height img)) *
                                      np_random_uniform (qc 3 10) (qc 5 10)))))
    as [small ->]; [lia | lia |].
  simpl. apply Hresize; lia.
Qed.

End LowRes.

(** X19 on the demo platform: an image of one pixel. *)
Lemma low_res_requests_positive_sizes_witness :
  exists r, low_res (AU := Demo.augmenter) (Image 1 1 [7]) = Ok r.
Proof.
  apply (low_res_requests_positive_sizes (AU := Demo.augmenter) (Image 1 1 [7])).
  intros im w h Hw Hh. destruct w, h; try lia. simpl. eauto.
Defined.
